(** * The plugin interface of [src/plugin/Plugin.h]

    A shallow embedding of the value types the header defines inline
    ([VersionNumber], [Configuration], [BifItem], [HookArgument]) and of the
    registration and dispatch protocol its documentation describes, followed
    by the properties proved about them. *)

From Stdlib Require Import ZArith List String Bool Lia PArith.
From Stdlib Require Import Floats.FloatClass Floats.SpecFloat.
Import ListNotations.
Local Open Scope Z_scope.

(** ** Machine-level conventions *)

(** [#ifndef BRO_PLUGIN_API_VERSION / #define BRO_PLUGIN_API_VERSION 3]: the
    value of the macro in a translation unit, given what the build of that
    unit defines it as from outside, if anything. *)
Definition BRO_PLUGIN_API_VERSION (external : option Z) : Z :=
  match external with
  | Some v => v
  | None => 3
  end.

(** The C++ [int] is a 32-bit two's-complement integer, carried as a [Z]
    together with its range. *)
Definition INT_MIN : Z := - 2 ^ 31.
Definition INT_MAX : Z := 2 ^ 31 - 1.
Definition is_int (n : Z) : Prop := INT_MIN <= n <= INT_MAX.

(** Object pointers ([Event*], [Func*], [Val*], [val_list*], [Frame*],
    [void*]) are opaque addresses; only their identity matters here. *)
Definition ptr : Set := N.
Definition nullptr : ptr := 0%N.

(** The C++ [double] is IEEE-754 binary64; its values are the [spec_float]s
    of precision 53 and maximal exponent 1024. *)
Definition double : Set := spec_float.
Definition prec : Z := 53.
Definition emax : Z := 1024.

(** The implicit conversion from [int] to [double]: the integer, rounded to
    the nearest representable value. *)
Definition int_to_double (n : Z) : double := binary_normalize prec emax n 0 false.

(** The integer a [double] denotes, when it is finite and integral. *)
Definition double_to_Z (d : double) : option Z :=
  match d with
  | S754_zero _ => Some 0
  | S754_finite s m e =>
      match e with
      | Z0 => Some (cond_Zopp s (Zpos m))
      | Zpos k => Some (cond_Zopp s (Zpos m * 2 ^ Zpos k))
      | Zneg k =>
          if Zpos m mod 2 ^ Zpos k =? 0
          then Some (cond_Zopp s (Zpos m / 2 ^ Zpos k))
          else None
      end
  | _ => None
  end.

(** What evaluating an expression of the header produces: a value, a failed
    [assert], or a read of a union member that is not the one last written
    (which the language leaves undefined). *)
Inductive outcome (A : Type) : Type :=
| Returns (a : A)
| AssertionFailed
| UndefinedRead.
Arguments Returns {A} a.
Arguments AssertionFailed {A}.
Arguments UndefinedRead {A}.

(** How a translation unit is compiled: with [assert] checking its
    condition, or with [NDEBUG] defined, which makes [assert] expand to
    nothing. *)
Inductive Build : Set := Checked | NDEBUG.

(** [assert(c); k] *)
Definition assert {A : Type} (build : Build) (c : bool) (k : outcome A) : outcome A :=
  match build with
  | Checked => if c then k else AssertionFailed
  | NDEBUG => k
  end.

Notation "'assert!' [ b ] c ';;' k" := (assert b c k)
  (at level 61, c at next level, right associativity).

(** ** [enum HookType] *)

Inductive HookType : Set :=
| HOOK_LOAD_FILE
| HOOK_CALL_FUNCTION
| HOOK_QUEUE_EVENT
| HOOK_DRAIN_EVENTS
| HOOK_UPDATE_NETWORK_TIME
| HOOK_BRO_OBJ_DTOR
| META_HOOK_PRE
| META_HOOK_POST.

(** The enumerators' values, [NUM_HOOKS] being the end marker. *)
Definition HookType_value (h : HookType) : nat :=
  match h with
  | HOOK_LOAD_FILE => 0
  | HOOK_CALL_FUNCTION => 1
  | HOOK_QUEUE_EVENT => 2
  | HOOK_DRAIN_EVENTS => 3
  | HOOK_UPDATE_NETWORK_TIME => 4
  | HOOK_BRO_OBJ_DTOR => 5
  | META_HOOK_PRE => 6
  | META_HOOK_POST => 7
  end%nat.

Definition NUM_HOOKS : nat := 8.

Definition all_hooks : list HookType :=
  [HOOK_LOAD_FILE; HOOK_CALL_FUNCTION; HOOK_QUEUE_EVENT; HOOK_DRAIN_EVENTS;
   HOOK_UPDATE_NETWORK_TIME; HOOK_BRO_OBJ_DTOR; META_HOOK_PRE; META_HOOK_POST].

Definition HookType_eq_dec (a b : HookType) : {a = b} + {a <> b}.
Proof. decide equality. Defined.

Definition HookType_eqb (a b : HookType) : bool :=
  if HookType_eq_dec a b then true else false.

(** ** [struct VersionNumber] *)

Record VersionNumber : Set := mkVersionNumber {
  major : Z;
  minor : Z
}.

(** [VersionNumber() { major = minor = -1; }] *)
Definition VersionNumber_ctor : VersionNumber :=
  let minor' := -1 in
  let major' := minor' in
  {| major := major'; minor := minor' |}.

(** [operator bool() const { return major >= 0 && minor >= 0; }] *)
Definition VersionNumber_bool (v : VersionNumber) : bool :=
  (major v >=? 0) && (minor v >=? 0).

(** ** [class Configuration] *)

Record Configuration : Set := mkConfiguration {
  name : string;
  description : string;
  version : VersionNumber;
  api_version : Z          (* private *)
}.

(** [Configuration::Configuration()]: the members are default-constructed
    (empty strings, [VersionNumber()]), then the body assigns. The
    constructor is inlined, so the macro is the one of the translation unit
    that constructs the object; [external] is what that unit's build defines
    it as. *)
Definition Configuration_ctor (external : option Z) : Configuration :=
  {| name := "";
     description := "";
     version := VersionNumber_ctor;
     api_version := BRO_PLUGIN_API_VERSION external |}.

(** What code outside [Plugin] can do with a [Configuration]: build one (in
    a translation unit of the host or of a plugin, each with its own setting
    of the macro), assign its public data members, and copy-assign a whole
    object. The private [api_version] has no setter. *)
Inductive ConfigurationUse : Set :=
| UseCtor (external : option Z)
| UseSetName (c : ConfigurationUse) (s : string)
| UseSetDescription (c : ConfigurationUse) (s : string)
| UseSetVersion (c : ConfigurationUse) (v : VersionNumber)
| UseSetVersionMajor (c : ConfigurationUse) (n : Z)
| UseSetVersionMinor (c : ConfigurationUse) (n : Z)
| UseAssign (dst src : ConfigurationUse).

Fixpoint configuration_of (u : ConfigurationUse) : Configuration :=
  match u with
  | UseCtor external => Configuration_ctor external
  | UseSetName c s =>
      let c := configuration_of c in
      {| name := s; description := description c;
         version := version c; api_version := api_version c |}
  | UseSetDescription c s =>
      let c := configuration_of c in
      {| name := name c; description := s;
         version := version c; api_version := api_version c |}
  | UseSetVersion c v =>
      let c := configuration_of c in
      {| name := name c; description := description c;
         version := v; api_version := api_version c |}
  | UseSetVersionMajor c n =>
      let c := configuration_of c in
      {| name := name c; description := description c;
         version := {| major := n; minor := minor (version c) |};
         api_version := api_version c |}
  | UseSetVersionMinor c n =>
      let c := configuration_of c in
      {| name := name c; description := description c;
         version := {| major := major (version c); minor := n |};
         api_version := api_version c |}
  | UseAssign dst src =>
      (* the implicit copy assignment copies every member of [src] *)
      let _ := configuration_of dst in configuration_of src
  end.

(** ** [class BifItem] *)

Module BifItem.

(** [enum Type { FUNCTION = 1, EVENT = 2, CONSTANT = 3, GLOBAL = 4, TYPE = 5 }] *)
Inductive Type_ : Set := FUNCTION | EVENT | CONSTANT | GLOBAL | TYPE.

Definition Type_value (t : Type_) : Z :=
  match t with
  | FUNCTION => 1 | EVENT => 2 | CONSTANT => 3 | GLOBAL => 4 | TYPE => 5
  end.

Record t : Set := new { id : string; type : Type_ }.

Definition GetID (b : t) : string := id b.
Definition GetType (b : t) : Type_ := type b.

Definition Type_eqb (a b : Type_) : bool := Type_value a =? Type_value b.

(** Same id and same kind. *)
Definition same (a b : t) : bool :=
  String.eqb (id a) (id b) && Type_eqb (type a) (type b).

End BifItem.

(** ** [class HookArgument] *)

Module HookArgument.

(** [enum Type] *)
Inductive Type_ : Set :=
| BOOL | DOUBLE | EVENT | FRAME | FUNC | FUNC_RESULT
| INT | STRING | VAL | VAL_LIST | VOID | VOIDP.

Definition Type_eq_dec (a b : Type_) : {a = b} + {a <> b}.
Proof. decide equality. Defined.

(** [type == X] *)
Definition Type_eqb (a b : Type_) : bool :=
  if Type_eq_dec a b then true else false.

(** The anonymous union [arg]: at most one member holds a value, the one
    written last; a fresh union holds none. *)
Inductive arg_union : Set :=
| uninitialized
| bool_ (b : bool)
| double_ (d : double)
| event (p : ptr)
| func (p : ptr)
| frame (p : ptr)
| int_ (n : Z)
| val (p : ptr)
| vals (p : ptr)
| voidp (p : ptr).

Record t : Set := mk {
  type : Type_;
  arg : arg_union;
  (* Outside union because these have dtors. *)
  func_result : bool * ptr;
  arg_string : string
}.

(** The state of the members before a constructor's body runs: [type] is
    assigned by every body, the union is left as it is, the pair and the
    string are default-constructed. *)
Definition fresh (ty : Type_) : t :=
  {| type := ty; arg := uninitialized;
     func_result := (false, nullptr); arg_string := "" |}.

Definition set_arg (h : t) (u : arg_union) : t :=
  {| type := type h; arg := u;
     func_result := func_result h; arg_string := arg_string h |}.

(** The constructors, one per payload type. *)
Definition of_void : t := fresh VOID.
Definition of_bool (a : bool) : t := set_arg (fresh BOOL) (bool_ a).
Definition of_double (a : double) : t := set_arg (fresh DOUBLE) (double_ a).
Definition of_Event (a : ptr) : t := set_arg (fresh EVENT) (event a).
Definition of_Func (a : ptr) : t := set_arg (fresh FUNC) (func a).
Definition of_int (a : Z) : t := set_arg (fresh INT) (int_ a).
Definition of_string (a : string) : t :=
  {| type := STRING; arg := uninitialized;
     func_result := (false, nullptr); arg_string := a |}.
Definition of_Val (a : ptr) : t := set_arg (fresh VAL) (val a).
Definition of_val_list (a : ptr) : t := set_arg (fresh VAL_LIST) (vals a).
Definition of_voidp (p : ptr) : t := set_arg (fresh VOIDP) (voidp p).
Definition of_func_result (fresult : bool * ptr) : t :=
  {| type := FUNC_RESULT; arg := uninitialized;
     func_result := fresult; arg_string := "" |}.
Definition of_Frame (f : ptr) : t := set_arg (fresh FRAME) (frame f).

(** Reads of the union's members. *)
Definition read_bool_ (u : arg_union) : outcome bool :=
  match u with bool_ b => Returns b | _ => UndefinedRead end.
Definition read_double_ (u : arg_union) : outcome double :=
  match u with double_ d => Returns d | _ => UndefinedRead end.
Definition read_event (u : arg_union) : outcome ptr :=
  match u with event p => Returns p | _ => UndefinedRead end.
Definition read_func (u : arg_union) : outcome ptr :=
  match u with func p => Returns p | _ => UndefinedRead end.
Definition read_frame (u : arg_union) : outcome ptr :=
  match u with frame p => Returns p | _ => UndefinedRead end.
Definition read_int_ (u : arg_union) : outcome Z :=
  match u with int_ n => Returns n | _ => UndefinedRead end.
Definition read_val (u : arg_union) : outcome ptr :=
  match u with val p => Returns p | _ => UndefinedRead end.
Definition read_vals (u : arg_union) : outcome ptr :=
  match u with vals p => Returns p | _ => UndefinedRead end.
Definition read_voidp (u : arg_union) : outcome ptr :=
  match u with voidp p => Returns p | _ => UndefinedRead end.

Definition omap {A B : Type} (f : A -> B) (o : outcome A) : outcome B :=
  match o with
  | Returns a => Returns (f a)
  | AssertionFailed => AssertionFailed
  | UndefinedRead => UndefinedRead
  end.

(** The accessors, inlined into the translation unit that calls them. *)
Section Accessors.

Variable build : Build.

Definition AsBool (h : t) : outcome bool :=
  assert! [build] Type_eqb (type h) BOOL ;; read_bool_ (arg h).
Definition AsDouble (h : t) : outcome double :=
  assert! [build] Type_eqb (type h) DOUBLE ;; read_double_ (arg h).
Definition AsEvent (h : t) : outcome ptr :=
  assert! [build] Type_eqb (type h) EVENT ;; read_event (arg h).
Definition AsFunc (h : t) : outcome ptr :=
  assert! [build] Type_eqb (type h) FUNC ;; read_func (arg h).
(** [double AsInt() const]: the [int] member is converted to the declared
    return type. *)
Definition AsInt (h : t) : outcome double :=
  assert! [build] Type_eqb (type h) INT ;; omap int_to_double (read_int_ (arg h)).
Definition AsString (h : t) : outcome string :=
  assert! [build] Type_eqb (type h) STRING ;; Returns (arg_string h).
Definition AsVal (h : t) : outcome ptr :=
  assert! [build] Type_eqb (type h) VAL ;; read_val (arg h).
Definition AsFuncResult (h : t) : outcome (bool * ptr) :=
  assert! [build] Type_eqb (type h) FUNC_RESULT ;; Returns (func_result h).
Definition AsFrame (h : t) : outcome ptr :=
  assert! [build] Type_eqb (type h) FRAME ;; read_frame (arg h).
Definition AsValList (h : t) : outcome ptr :=
  assert! [build] Type_eqb (type h) VAL_LIST ;; read_vals (arg h).
Definition AsVoidPtr (h : t) : outcome ptr :=
  assert! [build] Type_eqb (type h) VOIDP ;; read_voidp (arg h).

End Accessors.

Definition GetType (h : t) : Type_ := type h.

End HookArgument.

(** [typedef std::list<HookArgument> HookArgumentList] *)
Definition HookArgumentList : Set := list HookArgument.t.

(** ** [class Plugin]: state *)

(** Plugins are told apart by their address ([Plugin*]). *)
Definition plugin_id : Set := nat.

(** The private data members of [Plugin]; a component is held by pointer
    ([std::list<Component *>]), a BiF item by value ([std::list<BifItem>]). *)
Record Plugin : Set := mkPlugin {
  config : Configuration;
  base_dir : string;
  sopath : string;
  dynamic : bool;
  components : list ptr;
  bif_items : list BifItem.t
}.

(** [typedef std::list<std::pair<HookType, int> > hook_list], the type of
    [EnabledHooks()]. *)
Definition hook_list : Set := list (HookType * Z).

(** Modelled from the spec: the body of [Plugin::Plugin()] is not in the
    header; a plugin starts statically linked, with empty directory and
    path, no component and no declared item. *)
Definition Plugin_ctor : Plugin :=
  {| config := Configuration_ctor None; base_dir := ""; sopath := "";
     dynamic := false; components := []; bif_items := [] |}.

(** Modelled from the spec: the body of [Plugin::AddBifItem] is not in the
    header; it appends the item to the declared-items list. *)
Definition AddBifItem (p : Plugin) (name : string) (type : BifItem.Type_) : Plugin :=
  {| config := config p; base_dir := base_dir p; sopath := sopath p;
     dynamic := dynamic p; components := components p;
     bif_items := bif_items p ++ [BifItem.new name type] |}.

(** Modelled from the spec: the body of [Plugin::BifItems] is not in the
    header; it returns the declared-items list. *)
Definition BifItems (p : Plugin) : list BifItem.t := bif_items p.

(** How many entries of a list declare the given id/kind pair. *)
Definition count_items (b : BifItem.t) (l : list BifItem.t) : nat :=
  List.length (filter (BifItem.same b) l).

(** ** The hook registry *)

(** Modelled from the spec: the registry the host's manager owns is not in
    the header; it keeps, per hook type, the (priority, plugin) pairs of the
    plugins enabled for it, in descending priority. *)
Definition priority_list : Set := list (Z * plugin_id).
Definition Registry : Type := HookType -> priority_list.

Definition no_hooks : Registry := fun _ => [].

Definition set_hooks (r : Registry) (h : HookType) (l : priority_list) : Registry :=
  fun h' => if HookType_eq_dec h h' then l else r h'.

Definition is_plugin (p : plugin_id) (e : Z * plugin_id) : bool := Nat.eqb (snd e) p.

(** Modelled from the spec: the manager's list operations are not in the
    header. The list without the entries of plugin [p]. *)
Definition without_plugin (p : plugin_id) (l : priority_list) : priority_list :=
  filter (fun e => negb (is_plugin p e)) l.

(** Modelled from the spec: the manager's list operations are not in the
    header. Insertion that keeps a descending list descending; the order
    among equal priorities is left open, here the newcomer goes last. *)
Fixpoint insert_by_priority (e : Z * plugin_id) (l : priority_list) : priority_list :=
  match l with
  | [] => [e]
  | x :: l' =>
      if fst x <? fst e then e :: x :: l' else x :: insert_by_priority e l'
  end.

(** Modelled from the spec: the body of [Plugin::EnableHook] is not in the
    header; it sets this plugin's entry for the hook type, replacing the
    priority of an entry that is already there. *)
Definition EnableHook (r : Registry) (p : plugin_id) (hook : HookType) (priority : Z)
  : Registry :=
  set_hooks r hook (insert_by_priority (priority, p) (without_plugin p (r hook))).

(** Modelled from the spec: the body of [Plugin::DisableHook] is not in the
    header; it removes this plugin's entry for the hook type. *)
Definition DisableHook (r : Registry) (p : plugin_id) (hook : HookType) : Registry :=
  set_hooks r hook (without_plugin p (r hook)).

(** Modelled from the spec: the body of [Plugin::EnabledHooks] is not in
    the header; it is the snapshot of this plugin's (hook, priority) pairs. *)
Definition EnabledHooks (r : Registry) (p : plugin_id) : hook_list :=
  flat_map
    (fun h => map (fun e => (h, fst e)) (filter (is_plugin p) (r h)))
    all_hooks.

(** The entries of a snapshot that are for hook type [h]. *)
Definition entries_for (h : HookType) (l : hook_list) : hook_list :=
  filter (fun e => HookType_eqb (fst e) h) l.

(** Modelled from the spec: the registry's invariant is stated there, not in
    the header. Each list is in descending priority and holds a plugin at
    most once. *)
Fixpoint descending (l : priority_list) : bool :=
  match l with
  | [] => true
  | x :: l' => forallb (fun y => fst y <=? fst x) l' && descending l'
  end.

Fixpoint distinct_plugins (l : priority_list) : bool :=
  match l with
  | [] => true
  | x :: l' => negb (existsb (is_plugin (snd x)) l') && distinct_plugins l'
  end.

Definition priority_list_ok (l : priority_list) : bool :=
  descending l && distinct_plugins l.

Definition registry_ok (r : Registry) : bool :=
  forallb (fun h => priority_list_ok (r h)) all_hooks.

(** Registration requests, as plugins issue them over time. *)
Inductive Request : Set :=
| Enable (p : plugin_id) (hook : HookType) (priority : Z)
| Disable (p : plugin_id) (hook : HookType).

Definition serve (r : Registry) (q : Request) : Registry :=
  match q with
  | Enable p hook priority => EnableHook r p hook priority
  | Disable p hook => DisableHook r p hook
  end.

Definition serve_all (qs : list Request) : Registry := fold_left serve qs no_hooks.

(** ** The dispatcher *)

(** The hook methods a plugin implements, by the results they return. The
    notification hooks ([HookDrainEvents], [HookUpdateNetworkTime],
    [HookBroObjDtor]) and the meta hooks return [void]. *)
Record HookMethods : Type := {
  HookLoadFile : string -> string -> Z;
  HookCallFunction : ptr -> ptr -> ptr -> bool * ptr;
  HookQueueEvent : ptr -> bool
}.

(** Modelled from the spec: the bodies of the base class's hook methods are
    not in the header; each is documented as never handling anything. *)
Definition Plugin_default : HookMethods :=
  {| HookLoadFile := fun _ _ => -1;
     HookCallFunction := fun _ _ _ => (false, nullptr);
     HookQueueEvent := fun _ => false |}.

(** One occurrence of an extension point, with the hook's parameters. *)
Inductive HookPoint : Set :=
| LoadFile (file ext : string)
| CallFunction (func parent args : ptr)
| QueueEvent (event : ptr)
| DrainEvents
| UpdateNetworkTime (network_time : double)
| BroObjDtor (obj : ptr).

Definition hook_of (pt : HookPoint) : HookType :=
  match pt with
  | LoadFile _ _ => HOOK_LOAD_FILE
  | CallFunction _ _ _ => HOOK_CALL_FUNCTION
  | QueueEvent _ => HOOK_QUEUE_EVENT
  | DrainEvents => HOOK_DRAIN_EVENTS
  | UpdateNetworkTime _ => HOOK_UPDATE_NETWORK_TIME
  | BroObjDtor _ => HOOK_BRO_OBJ_DTOR
  end.

(** What a hook method hands back. *)
Inductive HookResult : Set :=
| LoadFileResult (rc : Z)
| CallFunctionResult (r : bool * ptr)
| QueueEventResult (taken : bool)
| NoResult.

(** A claiming result: [HookLoadFile] returned 1 or 0 (not -1),
    [HookCallFunction] set the processed flag, [HookQueueEvent] returned
    true. *)
Definition claiming (r : HookResult) : bool :=
  match r with
  | LoadFileResult rc => rc >=? 0
  | CallFunctionResult r => fst r
  | QueueEventResult taken => taken
  | NoResult => false
  end.

Definition call_hook (m : HookMethods) (pt : HookPoint) : HookResult :=
  match pt with
  | LoadFile file ext => LoadFileResult (HookLoadFile m file ext)
  | CallFunction f parent args => CallFunctionResult (HookCallFunction m f parent args)
  | QueueEvent ev => QueueEventResult (HookQueueEvent m ev)
  | DrainEvents | UpdateNetworkTime _ | BroObjDtor _ => NoResult
  end.

(** Modelled from the spec: the manager's default results are not in the
    header. The result when no plugin handled the hook is the one the base
    class's method returns. *)
Definition default_result (pt : HookPoint) : HookResult :=
  call_hook Plugin_default pt.

(** Modelled from the spec: the manager's code that builds the arguments of
    the meta hooks is not in the header; the list holds the hook's actual
    parameters, each wrapped by the constructor of its type. *)
Definition hook_arguments (pt : HookPoint) : HookArgumentList :=
  match pt with
  | LoadFile file ext => [HookArgument.of_string file; HookArgument.of_string ext]
  | CallFunction f parent args =>
      [HookArgument.of_Func f; HookArgument.of_Frame parent; HookArgument.of_val_list args]
  | QueueEvent ev => [HookArgument.of_Event ev]
  | DrainEvents => []
  | UpdateNetworkTime t => [HookArgument.of_double t]
  | BroObjDtor obj => [HookArgument.of_voidp obj]
  end.

(** Modelled from the spec: the manager's code that wraps a hook's result
    for [MetaHookPost] is not in the header; the result goes through the
    [HookArgument] constructor of its type, a missing result through the
    default constructor. *)
Definition result_argument (r : HookResult) : HookArgument.t :=
  match r with
  | LoadFileResult rc => HookArgument.of_int rc
  | CallFunctionResult r => HookArgument.of_func_result r
  | QueueEventResult taken => HookArgument.of_bool taken
  | NoResult => HookArgument.of_void
  end.

(** The calls into plugins that one dispatch makes, in order. *)
Inductive Call : Set :=
| CallMetaHookPre (p : plugin_id) (hook : HookType) (args : HookArgumentList)
| CallHook (p : plugin_id) (pt : HookPoint)
| CallMetaHookPost (p : plugin_id) (hook : HookType) (args : HookArgumentList)
    (result : HookArgument.t).

(** Dispatch computes a value and logs the calls it makes. *)
Definition Logged (A : Type) : Type := A * list Call.

Definition ret {A : Type} (a : A) : Logged A := (a, []).

Definition bind {A B : Type} (m : Logged A) (f : A -> Logged B) : Logged B :=
  let (a, l) := m in let (b, l') := f a in (b, l ++ l').

Definition log (c : Call) : Logged unit := (tt, [c]).

Notation "x <- m ;; k" := (bind m (fun x => k))
  (at level 61, m at next level, right associativity).
Notation "m ;;; k" := (bind m (fun _ => k))
  (at level 61, right associativity).

(** Modelled from the spec: which hooks stop at the first claiming plugin is
    decided in the manager, not in the header. *)
Definition is_first_responder (h : HookType) : bool :=
  match h with
  | HOOK_LOAD_FILE | HOOK_CALL_FUNCTION | HOOK_QUEUE_EVENT => true
  | _ => false
  end.

(** The meta-hook call made on the plugin of a registry entry. *)
Definition pre_call (hook : HookType) (args : HookArgumentList) (e : Z * plugin_id) : Call :=
  CallMetaHookPre (snd e) hook args.

Definition post_call (hook : HookType) (args : HookArgumentList)
    (result : HookArgument.t) (e : Z * plugin_id) : Call :=
  CallMetaHookPost (snd e) hook args result.

Section Dispatch.

(** The registry, and each plugin's implementation of the hook methods. *)
Variable registry : Registry.
Variable methods : plugin_id -> HookMethods.

(** Modelled from the spec: the manager's meta-hook rounds are not in the
    header; [MetaHookPre] is called on every plugin subscribed to it. *)
Fixpoint meta_pre (hook : HookType) (args : HookArgumentList) (l : priority_list)
  : Logged unit :=
  match l with
  | [] => ret tt
  | e :: l' => log (pre_call hook args e) ;;; meta_pre hook args l'
  end.

(** Modelled from the spec: the manager's meta-hook rounds are not in the
    header; [MetaHookPost] is called on every plugin subscribed to it, with
    the hook's arguments and the final result. *)
Fixpoint meta_post (hook : HookType) (args : HookArgumentList)
    (result : HookArgument.t) (l : priority_list) : Logged unit :=
  match l with
  | [] => ret tt
  | e :: l' => log (post_call hook args result e) ;;; meta_post hook args result l'
  end.

(** Modelled from the spec: the manager's dispatch loop is not in the
    header; the hook method is called on each enabled plugin in priority
    order until one returns a claiming result. *)
Fixpoint first_responder (pt : HookPoint) (l : priority_list) : Logged HookResult :=
  match l with
  | [] => ret (default_result pt)
  | (_, p) :: l' =>
      log (CallHook p pt) ;;;
      let r := call_hook (methods p) pt in
      if claiming r then ret r else first_responder pt l'
  end.

(** Modelled from the spec: the manager's dispatch loop is not in the
    header; a broadcast hook is called on every enabled plugin. *)
Fixpoint broadcast (pt : HookPoint) (l : priority_list) : Logged HookResult :=
  match l with
  | [] => ret NoResult
  | (_, p) :: l' => log (CallHook p pt) ;;; broadcast pt l'
  end.

(** Modelled from the spec: the manager's code for an extension point is
    not in the header; [MetaHookPre] on all meta-subscribed plugins, the
    hook methods, [MetaHookPost] on all meta-subscribed plugins with the
    final result. *)
(** Modelled from the spec: the manager's choice between the two loops is
    not in the header; [LoadFile], [CallFunction] and [QueueEvent] stop at
    the first responder, the other hooks are broadcast. *)
Definition hook_round (pt : HookPoint) : Logged HookResult :=
  if is_first_responder (hook_of pt)
  then first_responder pt (registry (hook_of pt))
  else broadcast pt (registry (hook_of pt)).

Definition dispatch (pt : HookPoint) : Logged HookResult :=
  let hook := hook_of pt in
  let args := hook_arguments pt in
  meta_pre hook args (registry META_HOOK_PRE) ;;;
  r <- hook_round pt ;;
  meta_post hook args (result_argument r) (registry META_HOOK_POST) ;;;
  ret r.

End Dispatch.

(** The plugins whose hook method a log shows called, in order. *)
Fixpoint hook_calls (l : list Call) : list plugin_id :=
  match l with
  | [] => []
  | CallHook p _ :: l' => p :: hook_calls l'
  | _ :: l' => hook_calls l'
  end.

(** The plugins a first-responder round calls. *)
Definition responders (methods : plugin_id -> HookMethods) (pt : HookPoint)
    (l : priority_list) : list plugin_id :=
  hook_calls (snd (first_responder methods pt l)).

(** How often a log shows [MetaHookPre] (resp. [MetaHookPost]) called on
    plugin [p]. *)
Definition is_meta_pre_of (p : plugin_id) (c : Call) : bool :=
  match c with CallMetaHookPre q _ _ => Nat.eqb q p | _ => false end.

Definition is_meta_post_of (p : plugin_id) (c : Call) : bool :=
  match c with CallMetaHookPost q _ _ _ => Nat.eqb q p | _ => false end.

Definition count_meta_pre (p : plugin_id) (l : list Call) : nat :=
  List.length (filter (is_meta_pre_of p) l).

Definition count_meta_post (p : plugin_id) (l : list Call) : nat :=
  List.length (filter (is_meta_post_of p) l).

(** The results that [MetaHookPost] calls of a log carry. *)
Fixpoint meta_post_results (l : list Call) : list HookArgument.t :=
  match l with
  | [] => []
  | CallMetaHookPost _ _ _ r :: l' => r :: meta_post_results l'
  | _ :: l' => meta_post_results l'
  end.

(** ** Uses of the value types *)

(** What a [HookArgument] is constructed from: nothing, or a value of one of
    the eleven payload types; the payload's type selects the constructor. *)
Inductive Payload : Set :=
| NoPayload
| BoolPayload (a : bool)
| DoublePayload (a : double)
| EventPayload (a : ptr)
| FuncPayload (a : ptr)
| IntPayload (a : Z)
| StringPayload (a : string)
| ValPayload (a : ptr)
| ValListPayload (a : ptr)
| VoidPtrPayload (p : ptr)
| FuncResultPayload (fresult : bool * ptr)
| FramePayload (f : ptr).

Definition construct (x : Payload) : HookArgument.t :=
  match x with
  | NoPayload => HookArgument.of_void
  | BoolPayload a => HookArgument.of_bool a
  | DoublePayload a => HookArgument.of_double a
  | EventPayload a => HookArgument.of_Event a
  | FuncPayload a => HookArgument.of_Func a
  | IntPayload a => HookArgument.of_int a
  | StringPayload a => HookArgument.of_string a
  | ValPayload a => HookArgument.of_Val a
  | ValListPayload a => HookArgument.of_val_list a
  | VoidPtrPayload p => HookArgument.of_voidp p
  | FuncResultPayload fresult => HookArgument.of_func_result fresult
  | FramePayload f => HookArgument.of_Frame f
  end.

(** How a call of an accessor ended. *)
Inductive Ending : Set := Returned | Asserted | ReadInactive.

Definition ending {A : Type} (o : outcome A) : Ending :=
  match o with
  | Returns _ => Returned
  | AssertionFailed => Asserted
  | UndefinedRead => ReadInactive
  end.

Definition Ending_eqb (a b : Ending) : bool :=
  match a, b with
  | Returned, Returned | Asserted, Asserted | ReadInactive, ReadInactive => true
  | _, _ => false
  end.

(** The eleven accessors, each called on the same argument. *)
Definition accessor_endings (build : Build) (h : HookArgument.t) : list Ending :=
  [ending (HookArgument.AsBool build h); ending (HookArgument.AsDouble build h);
   ending (HookArgument.AsEvent build h); ending (HookArgument.AsFunc build h);
   ending (HookArgument.AsInt build h); ending (HookArgument.AsString build h);
   ending (HookArgument.AsVal build h); ending (HookArgument.AsFuncResult build h);
   ending (HookArgument.AsFrame build h); ending (HookArgument.AsValList build h);
   ending (HookArgument.AsVoidPtr build h)].

(** The tags the eleven accessors assert, in the same order. *)
Definition accessor_tags : list HookArgument.Type_ :=
  [HookArgument.BOOL; HookArgument.DOUBLE; HookArgument.EVENT; HookArgument.FUNC;
   HookArgument.INT; HookArgument.STRING; HookArgument.VAL;
   HookArgument.FUNC_RESULT; HookArgument.FRAME; HookArgument.VAL_LIST;
   HookArgument.VOIDP].

Definition count_ending (e : Ending) (l : list Ending) : nat :=
  List.length (filter (Ending_eqb e) l).



(** Whether the configuration a use yields has had its [version], or one of
    the version's numbers, assigned. *)
Fixpoint assigns_version (u : ConfigurationUse) : bool :=
  match u with
  | UseCtor _ => false
  | UseSetName c _ | UseSetDescription c _ => assigns_version c
  | UseSetVersion _ _ | UseSetVersionMajor _ _ | UseSetVersionMinor _ _ => true
  | UseAssign _ src => assigns_version src
  end.

(** ** Sample plugins *)

(** A plugin that claims whatever it is offered, and one that keeps the
    base class's methods. *)
Definition claims_all : HookMethods :=
  {| HookLoadFile := fun _ _ => 1;
     HookCallFunction := fun _ _ _ => (true, 7%N);
     HookQueueEvent := fun _ => true |}.

Definition sample_methods (p : plugin_id) : HookMethods :=
  if Nat.eqb p 1 then claims_all else Plugin_default.

(** Plugin 2 enables [HOOK_CALL_FUNCTION] at priority 5 before plugin 1
    enables it at priority 10. *)
Definition sample_registry : Registry :=
  serve_all [Enable 2%nat HOOK_CALL_FUNCTION 5; Enable 1%nat HOOK_CALL_FUNCTION 10].

(** Two plugins subscribe to the meta hooks; nothing else is enabled. *)
Definition meta_only_registry : Registry :=
  serve_all [Enable 1%nat META_HOOK_PRE 0; Enable 1%nat META_HOOK_POST 0;
             Enable 2%nat META_HOOK_PRE 3; Enable 2%nat META_HOOK_POST (-1)].

(** Plugin 1 declines every offer, plugin 2 takes a function call over with
    the value at address 42 and loads any file. *)
Definition takes_over : HookMethods :=
  {| HookLoadFile := fun _ _ => 1;
     HookCallFunction := fun _ _ _ => (true, 42%N);
     HookQueueEvent := fun _ => false |}.

Definition scenario_methods (p : plugin_id) : HookMethods :=
  if Nat.eqb p 2 then takes_over else Plugin_default.

Definition scenario_registry : Registry :=
  serve_all [Enable 2%nat HOOK_CALL_FUNCTION 1; Enable 1%nat HOOK_CALL_FUNCTION 5;
             Enable 1%nat HOOK_LOAD_FILE 0; Enable 2%nat HOOK_LOAD_FILE 0;
             Enable 3%nat META_HOOK_POST 0].

(** * Properties *)

(** ** The conversion from [int] to [double] *)

(** A mantissa of at most 53 bits is brought to exactly 53 bits by a left
    shift and then passes the rounding steps unchanged. *)

Lemma digits2_pos_size (p : positive) : digits2_pos p = Pos.size p.
Proof. induction p; simpl; congruence. Qed.

Lemma digits2_pos_iter_xO (p k : positive) :
  digits2_pos (Pos.iter xO p k) = (digits2_pos p + k)%positive.
Proof.
  induction k using Pos.peano_ind.
  - simpl. lia.
  - rewrite Pos.iter_succ. simpl. rewrite IHk. lia.
Qed.

Lemma Zpos_iter_xO (p k : positive) :
  Zpos (Pos.iter xO p k) = Zpos p * 2 ^ Zpos k.
Proof.
  induction k using Pos.peano_ind.
  - simpl. lia.
  - rewrite Pos.iter_succ, Pos2Z.inj_xO, IHk, Pos2Z.inj_succ, Z.pow_succ_r by lia. lia.
Qed.

Lemma digits2_pos_bound (p : positive) (b : Z) :
  0 <= b -> Zpos p <= 2 ^ b -> Zpos (digits2_pos p) <= b + 1.
Proof.
  intros Hb Hp. rewrite digits2_pos_size.
  pose proof (Pos.size_le p) as H.
  apply Pos2Z.pos_le_pos in H. rewrite Pos2Z.inj_pow in H.
  assert (2 ^ Zpos (Pos.size p) < 2 ^ (b + 2)).
  { rewrite (Z.pow_add_r 2 b 2) by lia. change (2 ^ 2) with 4. lia. }
  apply Z.pow_lt_mono_r_iff in H0; lia.
Qed.

Lemma shr_fexp_exact (m : positive) (e : Z) :
  Zpos (digits2_pos m) = 53 -> -1074 <= e ->
  shr_fexp prec emax (Zpos m) e loc_Exact =
  ({| shr_m := Zpos m; shr_r := false; shr_s := false |}, e).
Proof.
  intros Hd He. unfold shr_fexp, fexp, emin, Zdigits2, prec, emax. rewrite Hd.
  replace (Z.max (53 + e - 53) (3 - 1024 - 53)) with e by lia.
  rewrite Z.sub_diag. reflexivity.
Qed.

Lemma binary_round_aux_exact (s : bool) (m : positive) (e : Z) :
  Zpos (digits2_pos m) = 53 -> -1074 <= e <= 971 ->
  binary_round_aux prec emax s (Zpos m) e loc_Exact = S754_finite s m e.
Proof.
  intros Hd He. unfold binary_round_aux.
  rewrite shr_fexp_exact by lia. simpl.
  rewrite shr_fexp_exact by lia. simpl.
  destruct (Z.leb_spec e 971); [reflexivity | lia].
Qed.

Lemma double_to_Z_binary_round (s : bool) (p : positive) :
  Zpos (digits2_pos p) <= 53 ->
  double_to_Z (binary_round prec emax s p 0) = Some (cond_Zopp s (Zpos p)).
Proof.
  intros Hd. unfold binary_round, shl_align, fexp, emin, prec, emax.
  assert (0 < Zpos (digits2_pos p)) by lia.
  replace (Z.max (Zpos (digits2_pos p) + 0 - 53) (3 - 1024 - 53))
    with (Zpos (digits2_pos p) - 53) by lia.
  rewrite Z.sub_0_r.
  destruct (Zpos (digits2_pos p) - 53) as [| k | k] eqn:E; [| lia |].
  - rewrite binary_round_aux_exact by lia. reflexivity.
  - assert (Hk : Zpos k = 53 - Zpos (digits2_pos p)) by lia.
    rewrite binary_round_aux_exact.
    + simpl double_to_Z. rewrite Zpos_iter_xO.
      rewrite Z_mod_mult, Z.eqb_refl, Z_div_mult by lia. reflexivity.
    + rewrite digits2_pos_iter_xO, Pos2Z.inj_add. lia.
    + lia.
Qed.

Lemma int_to_double_exact (n : Z) :
  - 2 ^ 52 <= n <= 2 ^ 52 -> double_to_Z (int_to_double n) = Some n.
Proof.
  intros Hn. unfold int_to_double, binary_normalize.
  destruct n as [| p | p]; [reflexivity | |].
  - apply (double_to_Z_binary_round false).
    apply (digits2_pos_bound p 52); lia. 
  - apply (double_to_Z_binary_round true).
    apply (digits2_pos_bound p 52); lia.
Qed.

Lemma is_int_small (n : Z) : is_int n -> - 2 ^ 52 <= n <= 2 ^ 52.
Proof. unfold is_int, INT_MIN, INT_MAX. lia. Qed.

(** The double an integer of at most 53 bits converts to. *)
Lemma binary_round_shape (s : bool) (p : positive) :
  Zpos (digits2_pos p) <= 53 ->
  exists m : positive,
    binary_round prec emax s p 0 = S754_finite s m (Zpos (digits2_pos p) - 53) /\
    Zpos (digits2_pos m) = 53 /\
    Zpos m = Zpos p * 2 ^ (53 - Zpos (digits2_pos p)).
Proof.
  intros Hd. unfold binary_round, shl_align, fexp, emin, prec, emax.
  assert (0 < Zpos (digits2_pos p)) by lia.
  replace (Z.max (Zpos (digits2_pos p) + 0 - 53) (3 - 1024 - 53))
    with (Zpos (digits2_pos p) - 53) by lia.
  rewrite Z.sub_0_r.
  destruct (Zpos (digits2_pos p) - 53) as [| k | k] eqn:E; [| lia |].
  - exists p. rewrite binary_round_aux_exact by lia.
    replace (53 - Zpos (digits2_pos p)) with 0 by lia.
    repeat split; lia.
  - assert (Hk : Zpos k = 53 - Zpos (digits2_pos p)) by lia.
    exists (Pos.iter xO p k).
    assert (Hdm : Zpos (digits2_pos (Pos.iter xO p k)) = 53)
      by (rewrite digits2_pos_iter_xO, Pos2Z.inj_add; lia).
    rewrite binary_round_aux_exact by lia.
    rewrite Zpos_iter_xO, Hk. repeat split. exact Hdm.
Qed.

Lemma digits2_pos_lt_value (p q : positive) :
  Zpos (digits2_pos p) < Zpos (digits2_pos q) -> Zpos p < Zpos q.
Proof.
  rewrite (digits2_pos_size p), (digits2_pos_size q). intros H.
  pose proof (Pos.size_gt p) as Hp. pose proof (Pos.size_le q) as Hq.
  apply Pos2Z.pos_lt_pos in Hp. apply Pos2Z.pos_le_pos in Hq.
  rewrite Pos2Z.inj_pow in Hp, Hq.
  assert (2 ^ (Zpos (Pos.size p) + 1) <= 2 ^ Zpos (Pos.size q))
    by (apply Z.pow_le_mono_r; lia).
  rewrite Z.pow_add_r in H0 by lia. change (2 ^ 1) with 2 in H0. lia.
Qed.

Lemma SFcompare_binary_round (s : bool) (p q : positive) :
  Zpos (digits2_pos p) <= 53 -> Zpos (digits2_pos q) <= 53 ->
  SFcompare (binary_round prec emax s p 0) (binary_round prec emax s q 0) =
  Some (if s then Zpos q ?= Zpos p else Zpos p ?= Zpos q).
Proof.
  intros Hp Hq.
  destruct (binary_round_shape s p Hp) as [m [-> [Hdm Hm]]].
  destruct (binary_round_shape s q Hq) as [n [-> [Hdn Hn]]].
  assert (Hsame : Zpos (digits2_pos p) = Zpos (digits2_pos q) ->
                  (Zpos m ?= Zpos n) = (Zpos p ?= Zpos q)).
  { intros E. rewrite Hm, Hn, E. symmetry. apply Zmult_compare_compat_r.
    apply Z.lt_gt, Z.pow_pos_nonneg; lia. }
  remember (Zpos (digits2_pos p) - 53) as e1 eqn:He1.
  remember (Zpos (digits2_pos q) - 53) as e2 eqn:He2.
  unfold SFcompare. change (Pos.compare_cont Eq m n) with (Zpos m ?= Zpos n).
  destruct (Z.compare_spec e1 e2) as [E | E | E].
  - rewrite Hsame by lia. destruct s; [| reflexivity].
    rewrite (Z.compare_antisym (Zpos p) (Zpos q)). reflexivity.
  - assert (Zpos p < Zpos q) by (apply digits2_pos_lt_value; lia).
    destruct s; f_equal; symmetry.
    + apply Z.compare_gt_iff. lia.
    + apply Z.compare_lt_iff. lia.
  - assert (Zpos q < Zpos p) by (apply digits2_pos_lt_value; lia).
    destruct s; f_equal; symmetry.
    + apply Z.compare_lt_iff. lia.
    + apply Z.compare_gt_iff. lia.
Qed.

Lemma int_to_double_shape (n : Z) :
  - 2 ^ 52 <= n <= 2 ^ 52 ->
  match int_to_double n with
  | S754_zero s => s = false /\ n = 0
  | S754_finite s m e =>
      s = (n <? 0) /\ n <> 0 /\ Zpos (digits2_pos m) = 53 /\ -52 <= e <= 0
  | _ => False
  end.
Proof.
  intros Hn. unfold int_to_double, binary_normalize.
  destruct n as [| p | p]; [split; reflexivity | |].
  - assert (Hd : Zpos (digits2_pos p) <= 53) by (apply (digits2_pos_bound p 52); lia).
    destruct (binary_round_shape false p Hd) as [m [-> [Hdm Hm]]].
    repeat split; try assumption; lia.
  - assert (Hd : Zpos (digits2_pos p) <= 53) by (apply (digits2_pos_bound p 52); lia).
    destruct (binary_round_shape true p Hd) as [m [-> [Hdm Hm]]].
    repeat split; try assumption; lia.
Qed.

Lemma int_to_double_valid (n : Z) :
  - 2 ^ 52 <= n <= 2 ^ 52 -> valid_binary prec emax (int_to_double n) = true.
Proof.
  intros Hn. pose proof (int_to_double_shape n Hn) as H.
  destruct (int_to_double n) as [s | s | | s m e]; try reflexivity; try contradiction.
  destruct H as [_ [_ [Hd He]]].
  unfold valid_binary, bounded, canonical_mantissa, fexp, emin, prec, emax.
  rewrite Hd. apply andb_true_iff. split.
  - apply Z.eqb_eq. lia.
  - apply Z.leb_le. lia.
Qed.

Lemma SFcompare_int_to_double (a b : Z) :
  - 2 ^ 52 <= a <= 2 ^ 52 -> - 2 ^ 52 <= b <= 2 ^ 52 ->
  SFcompare (int_to_double a) (int_to_double b) = Some (a ?= b).
Proof.
  intros Ha Hb.
  assert (Hd : forall p, Zpos p <= 2 ^ 52 -> Zpos (digits2_pos p) <= 53)
    by (intros p Hp; apply (digits2_pos_bound p 52); lia).
  unfold int_to_double, binary_normalize.
  destruct a as [| p | p], b as [| q | q]; try reflexivity;
    try (rewrite (SFcompare_binary_round false) by (apply Hd; lia); reflexivity);
    try (rewrite (SFcompare_binary_round true) by (apply Hd; lia);
         simpl; rewrite <- Pos.compare_antisym; reflexivity);
    repeat match goal with
    | |- context [binary_round prec emax ?s ?p 0] =>
        let m := fresh "m" in
        destruct (binary_round_shape s p ltac:(apply Hd; lia)) as [m [-> _]]
    end; reflexivity.
Qed.

Lemma SFclassify_int_to_double (n : Z) :
  - 2 ^ 52 <= n <= 2 ^ 52 ->
  SFclassify prec (int_to_double n) =
  if n =? 0 then PZero else if n <? 0 then NNormal else PNormal.
Proof.
  intros Hn. pose proof (int_to_double_shape n Hn) as H.
  destruct (int_to_double n) as [s | s | | s m e]; try contradiction.
  - destruct H as [-> ->]. reflexivity.
  - destruct H as [-> [Hne [Hd _]]]. unfold SFclassify. rewrite Hd.
    destruct (Z.eqb_spec n 0) as [E | _]; [contradiction |].
    destruct (n <? 0); reflexivity.
Qed.

(** ** The argument variant *)

Section HookArgumentFacts.

Import HookArgument.

Lemma Type_eqb_eq (a b : Type_) : Type_eqb a b = true <-> a = b.
Proof.
  unfold Type_eqb. destruct (Type_eq_dec a b); split; congruence.
Qed.

Lemma Type_eqb_neq (a b : Type_) : Type_eqb a b = false <-> a <> b.
Proof.
  unfold Type_eqb. destruct (Type_eq_dec a b); split; congruence.
Qed.

(** A checked assertion on the tag fails exactly when the tag is another
    one, whatever the guarded read yields. *)
Lemma assert_tag_fails {A : Type} (h : t) (X : Type_) (k : outcome A) :
  k <> AssertionFailed ->
  (assert! [Checked] Type_eqb (type h) X ;; k) = AssertionFailed <-> GetType h <> X.
Proof.
  intros Hk. unfold assert, GetType.
  destruct (Type_eqb (type h) X) eqn:E.
  - apply Type_eqb_eq in E. split; [intros; contradiction | congruence].
  - apply Type_eqb_neq in E. tauto.
Qed.

Lemma omap_not_failed {A B : Type} (f : A -> B) (o : outcome A) :
  o <> AssertionFailed -> omap f o <> AssertionFailed.
Proof. destruct o; simpl; congruence. Qed.

Ltac read_never_fails :=
  match goal with
  | |- ?r (arg ?h) <> AssertionFailed => destruct (arg h); simpl; congruence
  | |- omap _ _ <> AssertionFailed => apply omap_not_failed; read_never_fails
  | |- Returns _ <> AssertionFailed => congruence
  end.

(** C1, the claim as stated fails: in a translation unit compiled with
    [NDEBUG] the assertion is gone, and on an argument constructed from the
    [int] 5 the string accessor returns the empty string and the boolean
    accessor reads a union member that was never written; neither is a
    failed assertion. *)
Lemma accessor_unchecked_under_NDEBUG :
  GetType (of_int 5) <> STRING /\
  AsString NDEBUG (of_int 5) = Returns EmptyString /\
  GetType (of_int 5) <> BOOL /\
  AsBool NDEBUG (of_int 5) = UndefinedRead /\
  AsBool NDEBUG (of_int 5) <> AssertionFailed.
Proof. repeat split; discriminate. Qed.

(** C1, amended. In a translation unit compiled with assertions (without
    [NDEBUG]), each accessor [AsX] ends in a failed assertion exactly when
    the argument's tag is not [X]: under any other tag it is a fault and
    never a value. In particular the boolean accessor faults on every
    argument constructed from an [int]. *)
Theorem accessor_faults_under_other_tag (h : HookArgument.t) :
  (AsBool Checked h = AssertionFailed <-> GetType h <> BOOL) /\
  (AsDouble Checked h = AssertionFailed <-> GetType h <> DOUBLE) /\
  (AsEvent Checked h = AssertionFailed <-> GetType h <> EVENT) /\
  (AsFunc Checked h = AssertionFailed <-> GetType h <> FUNC) /\
  (AsInt Checked h = AssertionFailed <-> GetType h <> INT) /\
  (AsString Checked h = AssertionFailed <-> GetType h <> STRING) /\
  (AsVal Checked h = AssertionFailed <-> GetType h <> VAL) /\
  (AsFuncResult Checked h = AssertionFailed <-> GetType h <> FUNC_RESULT) /\
  (AsFrame Checked h = AssertionFailed <-> GetType h <> FRAME) /\
  (AsValList Checked h = AssertionFailed <-> GetType h <> VAL_LIST) /\
  (AsVoidPtr Checked h = AssertionFailed <-> GetType h <> VOIDP) /\
  (forall n : Z, AsBool Checked (of_int n) = AssertionFailed).
Proof.
  repeat match goal with |- _ /\ _ => split end;
    try (apply assert_tag_fails; read_never_fails).
  intros n. reflexivity.
Qed.

(** C9. The argument built by the constructor without parameters has tag
    [VOID], its union holds no member, its tag is none of the tags an
    accessor asserts, and every payload accessor fails its assertion. *)
Theorem default_argument_is_void :
  GetType of_void = VOID /\
  arg of_void = uninitialized /\
  ~ In (GetType of_void) accessor_tags /\
  AsBool Checked of_void = AssertionFailed /\
  AsDouble Checked of_void = AssertionFailed /\
  AsEvent Checked of_void = AssertionFailed /\
  AsFunc Checked of_void = AssertionFailed /\
  AsInt Checked of_void = AssertionFailed /\
  AsString Checked of_void = AssertionFailed /\
  AsVal Checked of_void = AssertionFailed /\
  AsFuncResult Checked of_void = AssertionFailed /\
  AsFrame Checked of_void = AssertionFailed /\
  AsValList Checked of_void = AssertionFailed /\
  AsVoidPtr Checked of_void = AssertionFailed.
Proof.
  repeat match goal with |- _ /\ _ => split end; try reflexivity.
  simpl. intros H. repeat destruct H as [H | H]; try discriminate H. exact H.
Qed.

(** C5. Constructing an argument from a payload of any of the eleven
    payload types gives an argument whose [GetType()] is that type's tag and
    whose matching accessor returns the payload, in either build; for an
    [int] payload the accessor returns it as the [double] of the same
    value. *)
Theorem construct_then_access (build : Build) :
  (forall v : bool, GetType (of_bool v) = BOOL /\ AsBool build (of_bool v) = Returns v) /\
  (forall v : double,
     GetType (of_double v) = DOUBLE /\ AsDouble build (of_double v) = Returns v) /\
  (forall v : ptr, GetType (of_Event v) = EVENT /\ AsEvent build (of_Event v) = Returns v) /\
  (forall v : ptr, GetType (of_Func v) = FUNC /\ AsFunc build (of_Func v) = Returns v) /\
  (forall v : Z, GetType (of_int v) = INT /\
     AsInt build (of_int v) = Returns (int_to_double v) /\
     (is_int v -> double_to_Z (int_to_double v) = Some v)) /\
  (forall v : string,
     GetType (of_string v) = STRING /\ AsString build (of_string v) = Returns v) /\
  (forall v : ptr, GetType (of_Val v) = VAL /\ AsVal build (of_Val v) = Returns v) /\
  (forall v : ptr,
     GetType (of_val_list v) = VAL_LIST /\ AsValList build (of_val_list v) = Returns v) /\
  (forall v : ptr, GetType (of_voidp v) = VOIDP /\ AsVoidPtr build (of_voidp v) = Returns v) /\
  (forall v : bool * ptr,
     GetType (of_func_result v) = FUNC_RESULT /\
     AsFuncResult build (of_func_result v) = Returns v) /\
  (forall v : ptr, GetType (of_Frame v) = FRAME /\ AsFrame build (of_Frame v) = Returns v).
Proof.
  repeat match goal with |- _ /\ _ => split end; intros v;
    repeat match goal with |- _ /\ _ => split end;
    try (destruct build; reflexivity).
  intros Hv. apply int_to_double_exact, is_int_small, Hv.
Qed.

(** C8. [AsInt] has return type [double]: on an argument constructed from
    an [int] it returns, in either build, the stored integer converted to
    [double]; the result is a valid binary64 value that denotes exactly the
    integer, so the constructed value is recovered from what [AsInt]
    returns. *)
Theorem AsInt_returns_exact_double (build : Build) (a : Z) :
  is_int a ->
  exists d : double,
    AsInt build (of_int a) = Returns d /\
    d = int_to_double a /\
    valid_binary prec emax d = true /\
    double_to_Z d = Some a.
Proof.
  intros Ha. apply is_int_small in Ha. exists (int_to_double a).
  split; [destruct build; reflexivity |]. split; [reflexivity |]. split.
  - apply int_to_double_valid, Ha.
  - apply int_to_double_exact, Ha.
Qed.

Lemma AsInt_returns_exact_double_witness :
  is_int INT_MIN /\
  exists d : double,
    AsInt NDEBUG (of_int INT_MIN) = Returns d /\
    d = int_to_double INT_MIN /\
    valid_binary prec emax d = true /\
    double_to_Z d = Some INT_MIN.
Proof.
  assert (H : is_int INT_MIN) by (unfold is_int, INT_MIN, INT_MAX; lia).
  split; [exact H | apply (AsInt_returns_exact_double NDEBUG INT_MIN H)].
Defined.

End HookArgumentFacts.

(** ** Version numbers and configurations *)

Lemma VersionNumber_bool_true (v : VersionNumber) :
  VersionNumber_bool v = true <-> 0 <= major v /\ 0 <= minor v.
Proof.
  unfold VersionNumber_bool. rewrite andb_true_iff, !Z.geb_le. tauto.
Qed.

(** C7, the claim as stated fails: a version with a non-negative major and a
    negative minor number converts to false although the two are not both
    negative. *)
Lemma VersionNumber_unset_with_one_negative :
  VersionNumber_bool {| major := 1; minor := -1 |} = false /\
  ~ (major {| major := 1; minor := -1 |} < 0 /\
     minor {| major := 1; minor := -1 |} < 0).
Proof. split; [reflexivity | simpl; lia]. Qed.

(** C7, amended. The default constructor yields [major = minor = -1], which
    converts to false; the conversion to [bool] returns true if and only if
    both numbers are non-negative, so a version is unset exactly when at
    least one of them is negative. *)
Theorem VersionNumber_set_iff (v : VersionNumber) :
  major VersionNumber_ctor = -1 /\
  minor VersionNumber_ctor = -1 /\
  VersionNumber_bool VersionNumber_ctor = false /\
  (VersionNumber_bool v = true <-> 0 <= major v /\ 0 <= minor v) /\
  (VersionNumber_bool v = false <-> major v < 0 \/ minor v < 0).
Proof.
  repeat split; try apply VersionNumber_bool_true; try tauto.
  - intros H. destruct (VersionNumber_bool v) eqn:E; [discriminate |].
    destruct (Z_lt_ge_dec (major v) 0) as [|Hm]; [now left |].
    destruct (Z_lt_ge_dec (minor v) 0) as [|Hn]; [now right |].
    assert (VersionNumber_bool v = true) by (apply VersionNumber_bool_true; lia).
    congruence.
  - intros H. destruct (VersionNumber_bool v) eqn:E; [| reflexivity].
    apply VersionNumber_bool_true in E. lia.
Qed.





(** ** Declared BiF items *)

Lemma count_items_app (b : BifItem.t) (l l' : list BifItem.t) :
  count_items b (l ++ l') = (count_items b l + count_items b l')%nat.
Proof.
  unfold count_items. rewrite filter_app, length_app. reflexivity.
Qed.

(** C6. Two calls of [AddBifItem("x::y", FUNCTION)] leave two more entries
    for that id/kind pair in [BifItems()], appended at the end; on a plugin
    that had declared nothing, [BifItems()] then holds exactly these two. *)
Theorem AddBifItem_twice_appends_two (p : Plugin) :
  let item := BifItem.new "x::y" BifItem.FUNCTION in
  let twice q :=
    AddBifItem (AddBifItem q "x::y" BifItem.FUNCTION) "x::y" BifItem.FUNCTION in
  BifItems (twice p) = BifItems p ++ [item; item] /\
  count_items item (BifItems (twice p)) = (count_items item (BifItems p) + 2)%nat /\
  BifItems (twice Plugin_ctor) = [item; item].
Proof.
  cbv zeta. unfold BifItems, AddBifItem. simpl bif_items.
  rewrite <- app_assoc. simpl app. repeat split.
  rewrite count_items_app. reflexivity.
Qed.

(** ** The hook registry *)

Lemma set_hooks_same (r : Registry) (h : HookType) (l : priority_list) :
  set_hooks r h l h = l.
Proof. unfold set_hooks. destruct (HookType_eq_dec h h); congruence. Qed.

Lemma set_hooks_other (r : Registry) (h h' : HookType) (l : priority_list) :
  h <> h' -> set_hooks r h l h' = r h'.
Proof. unfold set_hooks. destruct (HookType_eq_dec h h'); congruence. Qed.

Lemma HookType_eqb_refl (h : HookType) : HookType_eqb h h = true.
Proof. unfold HookType_eqb. destruct (HookType_eq_dec h h); congruence. Qed.

Lemma is_plugin_self (p : plugin_id) (x : Z) : is_plugin p (x, p) = true.
Proof. unfold is_plugin. apply Nat.eqb_refl. Qed.

Lemma is_plugin_true (p : plugin_id) (e : Z * plugin_id) :
  is_plugin p e = true <-> snd e = p.
Proof. unfold is_plugin. apply Nat.eqb_eq. Qed.

Lemma filter_tagged (h h' : HookType) (l : priority_list) :
  entries_for h (map (fun e => (h', fst e)) l) =
  if HookType_eqb h' h then map (fun e => (h', fst e)) l else [].
Proof.
  unfold entries_for. induction l as [| x l IH]; simpl.
  - destruct (HookType_eqb h' h); reflexivity.
  - rewrite IH. destruct (HookType_eqb h' h); reflexivity.
Qed.

Lemma entries_for_app (h : HookType) (l l' : hook_list) :
  entries_for h (l ++ l') = entries_for h l ++ entries_for h l'.
Proof. apply filter_app. Qed.

(** A plugin's snapshot, restricted to one hook type, is its part of that
    hook type's priority list. *)
Lemma entries_for_EnabledHooks (r : Registry) (p : plugin_id) (h : HookType) :
  entries_for h (EnabledHooks r p) =
  map (fun e => (h, fst e)) (filter (is_plugin p) (r h)).
Proof.
  unfold EnabledHooks, all_hooks. simpl flat_map.
  rewrite !entries_for_app, !filter_tagged.
  destruct h; simpl; rewrite ?app_nil_r; reflexivity.
Qed.

Lemma In_EnabledHooks (r : Registry) (p : plugin_id) (h : HookType) (x : Z) :
  In (h, x) (EnabledHooks r p) <-> In (x, p) (r h).
Proof.
  transitivity (In (h, x) (entries_for h (EnabledHooks r p))).
  - unfold entries_for. rewrite filter_In. simpl. rewrite HookType_eqb_refl. tauto.
  - rewrite entries_for_EnabledHooks, in_map_iff. split.
    + intros [[y q] [E H]]. apply filter_In in H as [H Hq].
      apply is_plugin_true in Hq. simpl in *. inversion E. subst. exact H.
    + intros H. exists (x, p). split; [reflexivity |].
      apply filter_In. split; [exact H | apply is_plugin_self].
Qed.

Lemma filter_is_plugin_without (p : plugin_id) (l : priority_list) :
  filter (is_plugin p) (without_plugin p l) = [].
Proof.
  unfold without_plugin. induction l as [| x l IH]; simpl; [reflexivity |].
  destruct (is_plugin p x) eqn:E; simpl; rewrite ?E; exact IH.
Qed.

Lemma filter_is_plugin_insert (p : plugin_id) (x : Z) (l : priority_list) :
  filter (is_plugin p) l = [] ->
  filter (is_plugin p) (insert_by_priority (x, p) l) = [(x, p)].
Proof.
  induction l as [| y l IH]; simpl; intros H.
  - rewrite is_plugin_self. reflexivity.
  - destruct (is_plugin p y) eqn:E; [discriminate |].
    destruct (fst y <? x); simpl; rewrite ?is_plugin_self, E.
    + rewrite H. reflexivity.
    + apply IH, H.
Qed.

Lemma EnabledHooks_EnableHook (r : Registry) (p : plugin_id) (h : HookType) (x : Z) :
  entries_for h (EnabledHooks (EnableHook r p h x) p) = [(h, x)].
Proof.
  rewrite entries_for_EnabledHooks. unfold EnableHook.
  rewrite set_hooks_same, filter_is_plugin_insert; [reflexivity |].
  apply filter_is_plugin_without.
Qed.

Lemma EnabledHooks_DisableHook (r : Registry) (p : plugin_id) (h : HookType) :
  entries_for h (EnabledHooks (DisableHook r p h) p) = [].
Proof.
  rewrite entries_for_EnabledHooks. unfold DisableHook.
  rewrite set_hooks_same, filter_is_plugin_without. reflexivity.
Qed.

(** *** The invariant is kept by every request *)

Lemma forallb_insert (f : Z * plugin_id -> bool) (e : Z * plugin_id) (l : priority_list) :
  forallb f (insert_by_priority e l) = f e && forallb f l.
Proof.
  induction l as [| y l IH]; simpl; [reflexivity |].
  destruct (fst y <? fst e); simpl; [reflexivity |].
  rewrite IH. destruct (f e), (f y); reflexivity.
Qed.

Lemma existsb_insert (f : Z * plugin_id -> bool) (e : Z * plugin_id) (l : priority_list) :
  existsb f (insert_by_priority e l) = f e || existsb f l.
Proof.
  induction l as [| y l IH]; simpl; [reflexivity |].
  destruct (fst y <? fst e); simpl; [reflexivity |].
  rewrite IH. destruct (f e), (f y); reflexivity.
Qed.

Lemma forallb_filter_keeps {A : Type} (f g : A -> bool) (l : list A) :
  forallb f l = true -> forallb f (filter g l) = true.
Proof.
  induction l as [| y l IH]; simpl; [reflexivity |].
  intros H. apply andb_true_iff in H as [Hy Hl].
  destruct (g y); simpl; rewrite ?Hy; auto.
Qed.

Lemma existsb_filter_false {A : Type} (f g : A -> bool) (l : list A) :
  existsb f l = false -> existsb f (filter g l) = false.
Proof.
  induction l as [| y l IH]; simpl; [reflexivity |].
  intros H. apply orb_false_iff in H as [Hy Hl].
  destruct (g y); simpl; rewrite ?Hy; auto.
Qed.

Lemma descending_filter (g : Z * plugin_id -> bool) (l : priority_list) :
  descending l = true -> descending (filter g l) = true.
Proof.
  induction l as [| y l IH]; simpl; [reflexivity |].
  intros H. apply andb_true_iff in H as [Hy Hl].
  destruct (g y); simpl; auto.
  rewrite forallb_filter_keeps by exact Hy. auto.
Qed.

Lemma distinct_plugins_filter (g : Z * plugin_id -> bool) (l : priority_list) :
  distinct_plugins l = true -> distinct_plugins (filter g l) = true.
Proof.
  induction l as [| y l IH]; simpl; [reflexivity |].
  intros H. apply andb_true_iff in H as [Hy Hl].
  destruct (g y); simpl; auto.
  apply negb_true_iff in Hy.
  rewrite existsb_filter_false by exact Hy. auto.
Qed.

Lemma forallb_weaken (x y : Z) (l : priority_list) :
  x <= y ->
  forallb (fun e => fst e <=? x) l = true ->
  forallb (fun e => fst e <=? y) l = true.
Proof.
  intros Hxy H. rewrite forallb_forall in *. intros e He.
  specialize (H e He). apply Z.leb_le in H. apply Z.leb_le. lia.
Qed.

Lemma descending_insert (e : Z * plugin_id) (l : priority_list) :
  descending l = true -> descending (insert_by_priority e l) = true.
Proof.
  induction l as [| y l IH]; simpl; [reflexivity |].
  intros H. apply andb_true_iff in H as [Hy Hl].
  destruct (Z.ltb_spec (fst y) (fst e)) as [Hlt | Hge]; simpl.
  - rewrite Hy, Hl.
    rewrite (forallb_weaken (fst y) (fst e)) by (lia || exact Hy).
    replace (fst y <=? fst e) with true by (symmetry; apply Z.leb_le; lia).
    reflexivity.
  - rewrite forallb_insert, Hy, IH by exact Hl.
    replace (fst e <=? fst y) with true by (symmetry; apply Z.leb_le; lia).
    reflexivity.
Qed.

Lemma distinct_plugins_insert (x : Z) (p : plugin_id) (l : priority_list) :
  existsb (is_plugin p) l = false ->
  distinct_plugins l = true ->
  distinct_plugins (insert_by_priority (x, p) l) = true.
Proof.
  induction l as [| y l IH]; simpl; [reflexivity |].
  intros Hp H. apply orb_false_iff in Hp as [Hpy Hpl].
  apply andb_true_iff in H as [Hy Hl].
  destruct (fst y <? x); simpl.
  - rewrite Hpy, Hpl, Hy, Hl. reflexivity.
  - rewrite existsb_insert, IH by assumption.
    apply negb_true_iff in Hy. rewrite Hy.
    unfold is_plugin in *. simpl. rewrite Nat.eqb_sym, Hpy. reflexivity.
Qed.

Lemma existsb_is_plugin_without (p : plugin_id) (l : priority_list) :
  existsb (is_plugin p) (without_plugin p l) = false.
Proof.
  unfold without_plugin. induction l as [| y l IH]; simpl; [reflexivity |].
  destruct (is_plugin p y) eqn:E; simpl; rewrite ?E; exact IH.
Qed.

Lemma priority_list_ok_without (p : plugin_id) (l : priority_list) :
  priority_list_ok l = true -> priority_list_ok (without_plugin p l) = true.
Proof.
  unfold priority_list_ok, without_plugin. intros H.
  apply andb_true_iff in H as [Hd Hn].
  rewrite descending_filter, distinct_plugins_filter by assumption. reflexivity.
Qed.

Lemma priority_list_ok_insert (x : Z) (p : plugin_id) (l : priority_list) :
  existsb (is_plugin p) l = false ->
  priority_list_ok l = true ->
  priority_list_ok (insert_by_priority (x, p) l) = true.
Proof.
  unfold priority_list_ok. intros Hp H.
  apply andb_true_iff in H as [Hd Hn].
  rewrite descending_insert, distinct_plugins_insert by assumption. reflexivity.
Qed.

Lemma registry_ok_iff (r : Registry) :
  registry_ok r = true <-> forall h, priority_list_ok (r h) = true.
Proof.
  unfold registry_ok. rewrite forallb_forall. split.
  - intros H h. apply H. destruct h; simpl; tauto.
  - intros H h _. apply H.
Qed.

Lemma registry_ok_set_hooks (r : Registry) (h : HookType) (l : priority_list) :
  registry_ok r = true -> priority_list_ok l = true ->
  registry_ok (set_hooks r h l) = true.
Proof.
  rewrite !registry_ok_iff. intros Hr Hl h'. unfold set_hooks.
  destruct (HookType_eq_dec h h'); auto.
Qed.

Lemma registry_ok_serve (r : Registry) (q : Request) :
  registry_ok r = true -> registry_ok (serve r q) = true.
Proof.
  intros Hr. pose proof (proj1 (registry_ok_iff r) Hr) as Hh.
  destruct q as [p h x | p h]; simpl; apply registry_ok_set_hooks; auto.
  - apply priority_list_ok_insert.
    + apply existsb_is_plugin_without.
    + apply priority_list_ok_without, Hh.
  - apply priority_list_ok_without, Hh.
Qed.

Lemma registry_ok_fold (qs : list Request) (r : Registry) :
  registry_ok r = true -> registry_ok (fold_left serve qs r) = true.
Proof.
  revert r. induction qs as [| q qs IH]; simpl; intros r Hr; [exact Hr |].
  apply IH, registry_ok_serve, Hr.
Qed.

Lemma registry_ok_serve_all (qs : list Request) : registry_ok (serve_all qs) = true.
Proof. apply registry_ok_fold. reflexivity. Qed.

(** In a list that holds each plugin at most once, a plugin has at most
    one entry, and exactly one if it has any. *)
Lemma distinct_plugins_at_most_one (p : plugin_id) (l : priority_list) :
  distinct_plugins l = true -> (List.length (filter (is_plugin p) l) <= 1)%nat.
Proof.
  induction l as [| y l IH]; simpl; [lia |].
  intros H. apply andb_true_iff in H as [Hy Hl]. apply negb_true_iff in Hy.
  destruct (is_plugin p y) eqn:E; [| auto].
  apply is_plugin_true in E. rewrite E in Hy.
  assert (Hnone : filter (is_plugin p) l = []).
  { clear - Hy. induction l as [| z l IH]; simpl in *; [reflexivity |].
    apply orb_false_iff in Hy as [Hz Hl]. rewrite Hz. auto. }
  rewrite Hnone. simpl. lia.
Qed.

Lemma distinct_plugins_exactly_one (p : plugin_id) (x : Z) (l : priority_list) :
  distinct_plugins l = true -> In (x, p) l ->
  List.length (filter (is_plugin p) l) = 1%nat.
Proof.
  intros Hd Hin. pose proof (distinct_plugins_at_most_one p l Hd) as Hle.
  assert (Hin' : In (x, p) (filter (is_plugin p) l)).
  { apply filter_In. split; [exact Hin | apply is_plugin_self]. }
  destruct (filter (is_plugin p) l); simpl in *; [contradiction | lia].
Qed.

(** C4. After [EnableHook(H, p)] the plugin's [EnabledHooks()] holds exactly
    one entry for [H], with priority [p]; enabling [H] again with [p2]
    replaces that entry; [DisableHook(H)] removes it; and whatever requests
    the plugins have issued, no plugin's [EnabledHooks()] holds two entries
    for one hook type. *)
Theorem EnableHook_one_entry_per_hook
    (r : Registry) (P : plugin_id) (H : HookType) (p p2 : Z) :
  entries_for H (EnabledHooks (EnableHook r P H p) P) = [(H, p)] /\
  entries_for H (EnabledHooks (EnableHook (EnableHook r P H p) P H p2) P) = [(H, p2)] /\
  entries_for H (EnabledHooks (DisableHook (EnableHook r P H p) P H) P) = [] /\
  (forall qs : list Request,
     (List.length (entries_for H (EnabledHooks (serve_all qs) P)) <= 1)%nat).
Proof.
  repeat split.
  - apply EnabledHooks_EnableHook.
  - apply EnabledHooks_EnableHook.
  - apply EnabledHooks_DisableHook.
  - intros qs. rewrite entries_for_EnabledHooks, length_map.
    apply distinct_plugins_at_most_one.
    pose proof (registry_ok_serve_all qs) as Hok.
    rewrite registry_ok_iff in Hok. specialize (Hok H).
    unfold priority_list_ok in Hok. apply andb_true_iff in Hok. tauto.
Qed.

(** ** The dispatcher *)

Section DispatchFacts.

Variable registry : Registry.
Variable methods : plugin_id -> HookMethods.

Lemma meta_pre_log (hook : HookType) (args : HookArgumentList) (l : priority_list) :
  meta_pre hook args l = (tt, map (pre_call hook args) l).
Proof.
  induction l as [| e l IH]; simpl; [reflexivity |].
  rewrite IH. reflexivity.
Qed.

Lemma meta_post_log (hook : HookType) (args : HookArgumentList)
    (result : HookArgument.t) (l : priority_list) :
  meta_post hook args result l = (tt, map (post_call hook args result) l).
Proof.
  induction l as [| e l IH]; simpl; [reflexivity |].
  rewrite IH. reflexivity.
Qed.

Lemma dispatch_log (pt : HookPoint) :
  dispatch registry methods pt =
  (fst (hook_round registry methods pt),
   map (pre_call (hook_of pt) (hook_arguments pt)) (registry META_HOOK_PRE) ++
   snd (hook_round registry methods pt) ++
   map (post_call (hook_of pt) (hook_arguments pt) (result_argument (fst (hook_round registry methods pt))))
     (registry META_HOOK_POST)).
Proof.
  unfold dispatch.
  rewrite meta_pre_log. destruct (hook_round registry methods pt) as [res calls].
  unfold bind at 1 2. rewrite meta_post_log. simpl.
  rewrite app_nil_r. reflexivity.
Qed.

Lemma hook_calls_app (l l' : list Call) :
  hook_calls (l ++ l') = hook_calls l ++ hook_calls l'.
Proof.
  induction l as [| c l IH]; simpl; [reflexivity |].
  destruct c; simpl; rewrite IH; reflexivity.
Qed.

Lemma hook_calls_pre (hook : HookType) (args : HookArgumentList) (l : priority_list) :
  hook_calls (map (pre_call hook args) l) = [].
Proof. induction l; simpl; auto. Qed.

Lemma hook_calls_post (hook : HookType) (args : HookArgumentList)
    (result : HookArgument.t) (l : priority_list) :
  hook_calls (map (post_call hook args result) l) = [].
Proof. induction l; simpl; auto. Qed.

Lemma hook_calls_dispatch (pt : HookPoint) :
  hook_calls (snd (dispatch registry methods pt)) = hook_calls (snd (hook_round registry methods pt)).
Proof.
  rewrite dispatch_log. simpl snd.
  rewrite !hook_calls_app, hook_calls_pre, hook_calls_post, app_nil_r. reflexivity.
Qed.

Lemma responders_cons (pt : HookPoint) (x : Z) (p : plugin_id) (l : priority_list) :
  responders methods pt ((x, p) :: l) =
  p :: (if claiming (call_hook (methods p) pt) then [] else responders methods pt l).
Proof.
  unfold responders. simpl.
  destruct (claiming (call_hook (methods p) pt)); simpl; [reflexivity |].
  destruct (first_responder methods pt l) as [res calls]. reflexivity.
Qed.

Lemma other_plugin (q p : plugin_id) (x : Z) (l : priority_list) :
  existsb (is_plugin q) l = false -> In (x, p) l -> p <> q.
Proof.
  intros Hq Hin E. subst p.
  assert (existsb (is_plugin q) l = true); [| congruence].
  apply existsb_exists. exists (x, q). split; [exact Hin | apply is_plugin_self].
Qed.

(** In a well-formed priority list, the plugin of the higher priority is
    called before the one of the lower priority, which is not called at all
    when the former claims. *)
Lemma first_responder_order (pt : HookPoint) (P1 P2 : plugin_id) (x1 x2 : Z)
    (l : priority_list) :
  x2 < x1 ->
  descending l = true -> distinct_plugins l = true ->
  In (x1, P1) l -> In (x2, P2) l ->
  (forall before after, responders methods pt l = before ++ P2 :: after -> In P1 before) /\
  (claiming (call_hook (methods P1) pt) = true -> ~ In P2 (responders methods pt l)).
Proof.
  intros Hlt. induction l as [| [x q] l IH]; simpl; intros Hd Hn H1 H2; [contradiction |].
  apply andb_true_iff in Hd as [Hall Hd].
  apply andb_true_iff in Hn as [Hq Hn]. apply negb_true_iff in Hq.
  rewrite responders_cons.
  destruct H1 as [E1 | H1].
  - inversion E1; subst x q.
    destruct H2 as [E2 | H2]; [inversion E2; lia |].
    assert (P2 <> P1) by (eapply other_plugin; eauto).
    split.
    + intros before after E.
      destruct before as [| b before]; simpl in E; inversion E; [congruence |].
      left. reflexivity.
    + intros Hc. rewrite Hc. simpl. intros [E | []]. congruence.
  - destruct H2 as [E2 | H2].
    + inversion E2; subst x q.
      rewrite forallb_forall in Hall. specialize (Hall _ H1).
      simpl in Hall. apply Z.leb_le in Hall. lia.
    + assert (P1 <> q) by (eapply other_plugin; eauto).
      assert (P2 <> q) by (eapply other_plugin; eauto).
      destruct (IH Hd Hn H1 H2) as [IHa IHb]. split.
      * intros before after E.
        destruct before as [| b before]; simpl in E;
          injection E as Eb Erest; [congruence |].
        right. destruct (claiming (call_hook (methods q) pt)).
        -- destruct before; discriminate Erest.
        -- eapply IHa; eauto.
      * intros Hc [E | Hin]; [congruence |].
        destruct (claiming (call_hook (methods q) pt)); [contradiction |].
        apply IHb; auto.
Qed.

(** An enabled plugin is called unless a plugin called before it claimed. *)
Lemma first_responder_reaches (pt : HookPoint) (P1 : plugin_id) (x1 : Z)
    (l : priority_list) :
  distinct_plugins l = true -> In (x1, P1) l ->
  In P1 (responders methods pt l) \/
  exists q, In q (responders methods pt l) /\ q <> P1 /\
            claiming (call_hook (methods q) pt) = true.
Proof.
  induction l as [| [x q] l IH]; simpl; intros Hn H1; [contradiction |].
  apply andb_true_iff in Hn as [Hq Hn]. apply negb_true_iff in Hq.
  rewrite responders_cons.
  destruct H1 as [E1 | H1].
  - inversion E1; subst. left. left. reflexivity.
  - assert (P1 <> q) by (eapply other_plugin; eauto).
    destruct (claiming (call_hook (methods q) pt)) eqn:Hc.
    + right. exists q. repeat split; [left; reflexivity | congruence | exact Hc].
    + destruct (IH Hn H1) as [Hin | [q' [Hin [Hne Hc']]]].
      * left. right. exact Hin.
      * right. exists q'. repeat split; [right; exact Hin | exact Hne | exact Hc'].
Qed.

Lemma count_meta_pre_pre (q : plugin_id) (hook : HookType) (args : HookArgumentList)
    (l : priority_list) :
  count_meta_pre q (map (pre_call hook args) l) = List.length (filter (is_plugin q) l).
Proof.
  unfold count_meta_pre. induction l as [| e l IH]; simpl; [reflexivity |].
  unfold is_plugin at 1. destruct (Nat.eqb (snd e) q); simpl; rewrite IH; reflexivity.
Qed.

Lemma count_meta_pre_post (q : plugin_id) (hook : HookType) (args : HookArgumentList)
    (result : HookArgument.t) (l : priority_list) :
  count_meta_pre q (map (post_call hook args result) l) = 0%nat.
Proof. unfold count_meta_pre. induction l; simpl; auto. Qed.

Lemma count_meta_post_post (q : plugin_id) (hook : HookType) (args : HookArgumentList)
    (result : HookArgument.t) (l : priority_list) :
  count_meta_post q (map (post_call hook args result) l) =
  List.length (filter (is_plugin q) l).
Proof.
  unfold count_meta_post. induction l as [| e l IH]; simpl; [reflexivity |].
  unfold is_plugin at 1. destruct (Nat.eqb (snd e) q); simpl; rewrite IH; reflexivity.
Qed.

Lemma count_meta_post_pre (q : plugin_id) (hook : HookType) (args : HookArgumentList)
    (l : priority_list) :
  count_meta_post q (map (pre_call hook args) l) = 0%nat.
Proof. unfold count_meta_post. induction l; simpl; auto. Qed.

Lemma meta_post_results_app (l l' : list Call) :
  meta_post_results (l ++ l') = meta_post_results l ++ meta_post_results l'.
Proof.
  induction l as [| c l IH]; simpl; [reflexivity |].
  destruct c; simpl; rewrite IH; reflexivity.
Qed.

Lemma meta_post_results_pre (hook : HookType) (args : HookArgumentList) (l : priority_list) :
  meta_post_results (map (pre_call hook args) l) = [].
Proof. induction l; simpl; auto. Qed.

Lemma meta_post_results_post (hook : HookType) (args : HookArgumentList)
    (result : HookArgument.t) (l : priority_list) :
  meta_post_results (map (post_call hook args result) l) = map (fun _ => result) l.
Proof. induction l; simpl; congruence. Qed.

(** With nothing enabled for the hook, the round calls no hook method and
    yields the default result. *)
Lemma hook_round_nothing_enabled (pt : HookPoint) :
  registry (hook_of pt) = [] -> hook_round registry methods pt = (default_result pt, []).
Proof.
  intros H. unfold hook_round. rewrite H. destruct pt; reflexivity.
Qed.

(** A round of hook methods logs no meta-hook call. *)
Lemma hook_round_filter (f : Call -> bool) (pt : HookPoint) :
  (forall p pt', f (CallHook p pt') = false) ->
  filter f (snd (hook_round registry methods pt)) = [].
Proof.
  intros Hf. unfold hook_round.
  destruct (is_first_responder (hook_of pt));
    induction (registry (hook_of pt)) as [| [x p] l IH]; simpl; try reflexivity.
  - destruct (claiming (call_hook (methods p) pt)); simpl.
    + rewrite Hf. reflexivity.
    + destruct (first_responder methods pt l) as [res calls].
      simpl in *. rewrite Hf. exact IH.
  - destruct (broadcast pt l) as [res calls]. simpl in *. rewrite Hf. exact IH.
Qed.

End DispatchFacts.

(** C2. When plugins [P1] and [P2] have a first-responder hook enabled with
    priorities 10 and 5, every dispatch of that hook calls [P1]'s hook
    method before it calls [P2]'s; [P2]'s is not called at all when [P1]
    returns a claiming result; and [P1]'s is called unless a plugin called
    earlier claimed. *)
Theorem higher_priority_responds_first
    (r : Registry) (methods : plugin_id -> HookMethods) (pt : HookPoint)
    (P1 P2 : plugin_id) :
  registry_ok r = true ->
  is_first_responder (hook_of pt) = true ->
  In (hook_of pt, 10) (EnabledHooks r P1) ->
  In (hook_of pt, 5) (EnabledHooks r P2) ->
  let calls := hook_calls (snd (dispatch r methods pt)) in
  (forall before after, calls = before ++ P2 :: after -> In P1 before) /\
  (claiming (call_hook (methods P1) pt) = true -> ~ In P2 calls) /\
  (In P1 calls \/
   exists q, In q calls /\ q <> P1 /\ claiming (call_hook (methods q) pt) = true).
Proof.
  intros Hok Hfirst H1 H2. cbv zeta.
  rewrite hook_calls_dispatch. unfold hook_round. rewrite Hfirst.
  fold (responders methods pt (r (hook_of pt))).
  apply In_EnabledHooks in H1, H2.
  rewrite registry_ok_iff in Hok. specialize (Hok (hook_of pt)).
  unfold priority_list_ok in Hok. apply andb_true_iff in Hok as [Hd Hn].
  destruct (first_responder_order methods pt P1 P2 10 5 (r (hook_of pt)))
    as [Ha Hb]; try assumption; try lia.
  repeat split; try assumption.
  eapply first_responder_reaches; eauto.
Qed.

Lemma higher_priority_responds_first_witness :
  registry_ok sample_registry = true /\
  is_first_responder (hook_of (CallFunction 1%N 2%N 3%N)) = true /\
  In (hook_of (CallFunction 1%N 2%N 3%N), 10) (EnabledHooks sample_registry 1%nat) /\
  In (hook_of (CallFunction 1%N 2%N 3%N), 5) (EnabledHooks sample_registry 2%nat) /\
  hook_calls (snd (dispatch sample_registry sample_methods (CallFunction 1%N 2%N 3%N))) = [1%nat] /\
  ~ In 2%nat (hook_calls (snd (dispatch sample_registry sample_methods (CallFunction 1%N 2%N 3%N)))).
Proof.
  assert (Hok : registry_ok sample_registry = true) by reflexivity.
  assert (Hfirst : is_first_responder (hook_of (CallFunction 1%N 2%N 3%N)) = true)
    by reflexivity.
  assert (H1 : In (hook_of (CallFunction 1%N 2%N 3%N), 10) (EnabledHooks sample_registry 1%nat))
    by (simpl; auto).
  assert (H2 : In (hook_of (CallFunction 1%N 2%N 3%N), 5) (EnabledHooks sample_registry 2%nat))
    by (simpl; auto).
  repeat split; try assumption.
  apply (higher_priority_responds_first sample_registry sample_methods
           (CallFunction 1%N 2%N 3%N) 1%nat 2%nat Hok Hfirst H1 H2).
  reflexivity.
Defined.

(** C3. At every occurrence of every hook's extension point, each plugin
    subscribed to [MetaHookPre] has it called exactly once and each plugin
    subscribed to [MetaHookPost] has it called exactly once; when no plugin
    is enabled for the hook itself, no hook method is called, the dispatch
    yields the default result, every [MetaHookPost] carries that default
    result, and for a hook without a result it is of type [VOID]. *)
Theorem meta_hooks_called_once
    (r : Registry) (methods : plugin_id -> HookMethods) (pt : HookPoint) :
  registry_ok r = true ->
  let result := fst (dispatch r methods pt) in
  let calls := snd (dispatch r methods pt) in
  (forall q x, In (META_HOOK_PRE, x) (EnabledHooks r q) ->
               count_meta_pre q calls = 1%nat) /\
  (forall q x, In (META_HOOK_POST, x) (EnabledHooks r q) ->
               count_meta_post q calls = 1%nat) /\
  (r (hook_of pt) = [] ->
   result = default_result pt /\
   hook_calls calls = [] /\
   calls =
     map (pre_call (hook_of pt) (hook_arguments pt)) (r META_HOOK_PRE) ++
     map (post_call (hook_of pt) (hook_arguments pt)
            (result_argument (default_result pt))) (r META_HOOK_POST) /\
   (forall res, In res (meta_post_results calls) ->
                res = result_argument (default_result pt)) /\
   (is_first_responder (hook_of pt) = false ->
    HookArgument.GetType (result_argument (default_result pt)) = HookArgument.VOID)).
Proof.
  intros Hok. cbv zeta. rewrite dispatch_log. simpl fst. simpl snd.
  assert (Hn : forall h, distinct_plugins (r h) = true).
  { intros h. rewrite registry_ok_iff in Hok. specialize (Hok h).
    unfold priority_list_ok in Hok. apply andb_true_iff in Hok. tauto. }
  split; [| split].
  - intros q x Hin. apply In_EnabledHooks in Hin.
    unfold count_meta_pre. rewrite !filter_app, !length_app.
    rewrite hook_round_filter by reflexivity.
    fold (count_meta_pre q (map (pre_call (hook_of pt) (hook_arguments pt))
                              (r META_HOOK_PRE))).
    rewrite count_meta_pre_pre, (distinct_plugins_exactly_one q x) by auto.
    match goal with
    | |- context [List.length (filter _ (map (post_call ?h ?a ?res) ?l))] =>
        fold (count_meta_pre q (map (post_call h a res) l));
        rewrite count_meta_pre_post
    end.
    reflexivity.
  - intros q x Hin. apply In_EnabledHooks in Hin.
    unfold count_meta_post. rewrite !filter_app, !length_app.
    rewrite hook_round_filter by reflexivity.
    fold (count_meta_post q (map (pre_call (hook_of pt) (hook_arguments pt))
                               (r META_HOOK_PRE))).
    rewrite count_meta_post_pre.
    match goal with
    | |- context [List.length (filter _ (map (post_call ?h ?a ?res) ?l))] =>
        fold (count_meta_post q (map (post_call h a res) l));
        rewrite count_meta_post_post
    end.
    rewrite (distinct_plugins_exactly_one q x) by auto.
    reflexivity.
  - intros Hnone. rewrite (hook_round_nothing_enabled r methods pt Hnone).
    simpl fst. simpl snd. repeat split.
    + rewrite !hook_calls_app, hook_calls_pre, hook_calls_post. reflexivity.
    + intros res Hin.
      rewrite !meta_post_results_app, meta_post_results_pre,
        meta_post_results_post in Hin.
      simpl in Hin. apply in_map_iff in Hin as [e [E _]]. congruence.
    + destruct pt; simpl; intros E; (discriminate || reflexivity).
Qed.

Lemma meta_hooks_called_once_witness :
  registry_ok meta_only_registry = true /\
  meta_only_registry (hook_of DrainEvents) = [] /\
  fst (dispatch meta_only_registry sample_methods DrainEvents) = NoResult /\
  count_meta_pre 1%nat (snd (dispatch meta_only_registry sample_methods DrainEvents)) = 1%nat /\
  count_meta_post 1%nat (snd (dispatch meta_only_registry sample_methods DrainEvents)) = 1%nat /\
  meta_post_results (snd (dispatch meta_only_registry sample_methods DrainEvents)) =
    [HookArgument.of_void; HookArgument.of_void].
Proof.
  assert (Hok : registry_ok meta_only_registry = true) by reflexivity.
  assert (Hnone : meta_only_registry (hook_of DrainEvents) = []) by reflexivity.
  destruct (meta_hooks_called_once meta_only_registry sample_methods DrainEvents Hok)
    as [Hpre [Hpost Hdefault]].
  destruct (Hdefault Hnone) as [Hres [_ [Hcalls _]]].
  split; [exact Hok |]. split; [exact Hnone |]. split; [exact Hres |].
  split; [apply (Hpre 1%nat 0); simpl; auto |].
  split; [apply (Hpost 1%nat 0); simpl; auto |].
  rewrite Hcalls. reflexivity.
Defined.

(** ** Further properties of the value types *)

(** X1. In a build with assertions, on an argument built by any
    constructor no accessor reads a union member other than the one the
    constructor wrote, and exactly one accessor returns a value (none on the
    default-constructed argument). In a build with [NDEBUG] no accessor
    stops at its assertion, and the accessors of the union members the
    constructor did not write, eight or nine of the eleven, read such a
    member. *)
Theorem constructed_argument_reads_written_member (x : Payload) :
  count_ending ReadInactive (accessor_endings Checked (construct x)) = 0%nat /\
  count_ending Returned (accessor_endings Checked (construct x)) =
    match x with NoPayload => 0%nat | _ => 1%nat end /\
  count_ending Asserted (accessor_endings NDEBUG (construct x)) = 0%nat /\
  count_ending ReadInactive (accessor_endings NDEBUG (construct x)) =
    match x with
    | NoPayload | StringPayload _ | FuncResultPayload _ => 9%nat
    | _ => 8%nat
    end.
Proof. destruct x; repeat split; reflexivity. Qed.

(** X2. Whatever an argument's tag and union hold, exactly one accessor
    gets past its assertion (as checked in a build with assertions), except
    under tag [VOID], where none does. *)
Theorem one_accessor_passes_per_tag (h : HookArgument.t) :
  List.length
    (filter (fun e => negb (Ending_eqb Asserted e)) (accessor_endings Checked h)) =
  if HookArgument.Type_eqb (HookArgument.GetType h) HookArgument.VOID
  then 0%nat else 1%nat.
Proof.
  destruct h as [ty u fr str]. destruct ty, u; reflexivity.
Qed.

(** X3. On an argument constructed from an [int], [AsInt] returns, in
    either build, a valid binary64 value that is never a NaN, an infinity, a subnormal or a
    negative zero: +0 for 0, a positive normal number for a positive
    payload and a negative normal number for a negative one. *)
Theorem AsInt_returns_normal_double (build : Build) (a : Z) :
  is_int a ->
  exists d : double,
    HookArgument.AsInt build (HookArgument.of_int a) = Returns d /\
    valid_binary prec emax d = true /\
    SFclassify prec d = if a =? 0 then PZero else if a <? 0 then NNormal else PNormal.
Proof.
  intros Ha. apply is_int_small in Ha. exists (int_to_double a).
  split; [destruct build; reflexivity |]. split.
  - apply int_to_double_valid, Ha.
  - apply SFclassify_int_to_double, Ha.
Qed.

Lemma AsInt_returns_normal_double_witness :
  is_int (-1) /\
  exists d : double,
    HookArgument.AsInt Checked (HookArgument.of_int (-1)) = Returns d /\
    valid_binary prec emax d = true /\
    SFclassify prec d = NNormal.
Proof.
  assert (H : is_int (-1)) by (unfold is_int, INT_MIN, INT_MAX; lia).
  split; [exact H | apply (AsInt_returns_normal_double Checked (-1) H)].
Defined.

(** X4. Comparing what [AsInt] returns, in either build, for two arguments
    constructed from [int]s gives the comparison of the two [int]s: the doubles compare
    less, equal or greater exactly as the integers do. *)
Theorem AsInt_preserves_order (build : Build) (a b : Z) :
  is_int a -> is_int b ->
  exists da db : double,
    HookArgument.AsInt build (HookArgument.of_int a) = Returns da /\
    HookArgument.AsInt build (HookArgument.of_int b) = Returns db /\
    SFcompare da db = Some (a ?= b).
Proof.
  intros Ha Hb. exists (int_to_double a), (int_to_double b).
  split; [destruct build; reflexivity |]. split; [destruct build; reflexivity |].
  apply SFcompare_int_to_double; apply is_int_small; assumption.
Qed.

Lemma AsInt_preserves_order_witness :
  is_int (INT_MAX - 1) /\ is_int INT_MAX /\
  exists da db : double,
    HookArgument.AsInt Checked (HookArgument.of_int (INT_MAX - 1)) = Returns da /\
    HookArgument.AsInt Checked (HookArgument.of_int INT_MAX) = Returns db /\
    SFcompare da db = Some Lt.
Proof.
  assert (Ha : is_int (INT_MAX - 1)) by (unfold is_int, INT_MIN, INT_MAX; lia).
  assert (Hb : is_int INT_MAX) by (unfold is_int, INT_MIN, INT_MAX; lia).
  split; [exact Ha |]. split; [exact Hb |].
  apply (AsInt_preserves_order Checked (INT_MAX - 1) INT_MAX Ha Hb).
Defined.

Lemma version_default (u : ConfigurationUse) :
  assigns_version u = false -> version (configuration_of u) = VersionNumber_ctor.
Proof.
  induction u; simpl; intros H; try discriminate; auto.
Qed.

(** X5. A configuration whose version was never assigned, directly or by
    copying a configuration whose version was, still holds the default
    version, which converts to false (unset). *)
Theorem version_unset_until_assigned (u : ConfigurationUse) :
  assigns_version u = false ->
  version (configuration_of u) = VersionNumber_ctor /\
  VersionNumber_bool (version (configuration_of u)) = false.
Proof.
  intros H. rewrite (version_default u H). split; reflexivity.
Qed.

Lemma version_unset_until_assigned_witness :
  assigns_version
    (UseSetDescription (UseSetName (UseCtor None) "Demo::Foo") "A demo") = false /\
  version (configuration_of
             (UseSetDescription (UseSetName (UseCtor None) "Demo::Foo") "A demo")) =
    VersionNumber_ctor /\
  VersionNumber_bool
    (version (configuration_of
                (UseSetDescription (UseSetName (UseCtor None) "Demo::Foo") "A demo"))) = false.
Proof.
  assert (H : assigns_version
                (UseSetDescription (UseSetName (UseCtor None) "Demo::Foo") "A demo") = false)
    by reflexivity.
  split; [exact H | apply (version_unset_until_assigned _ H)].
Defined.

(** X7. On a configuration whose version was never assigned, assigning only
    the major or only the minor number leaves the version unset whatever
    the number is; after assigning both, the version is set exactly when
    both numbers are non-negative. *)
Theorem version_set_needs_both_numbers (u : ConfigurationUse) :
  assigns_version u = false ->
  (forall n, VersionNumber_bool
               (version (configuration_of (UseSetVersionMajor u n))) = false) /\
  (forall n, VersionNumber_bool
               (version (configuration_of (UseSetVersionMinor u n))) = false) /\
  (forall n m, VersionNumber_bool
                 (version (configuration_of
                             (UseSetVersionMinor (UseSetVersionMajor u n) m))) =
               (n >=? 0) && (m >=? 0)).
Proof.
  intros H. simpl. rewrite (version_default u H).
  unfold VersionNumber_bool. simpl.
  split; [intros n; apply andb_false_r |].
  split; [intros n; reflexivity | intros n m; reflexivity].
Qed.

Lemma version_set_needs_both_numbers_witness :
  assigns_version (UseSetName (UseCtor None) "Demo::Foo") = false /\
  VersionNumber_bool
    (version (configuration_of
                (UseSetVersionMajor (UseSetName (UseCtor None) "Demo::Foo") 2))) = false.
Proof.
  assert (H : assigns_version (UseSetName (UseCtor None) "Demo::Foo") = false) by reflexivity.
  split; [exact H |].
  apply (proj1 (version_set_needs_both_numbers (UseSetName (UseCtor None) "Demo::Foo") H) 2).
Defined.

(** X6. The values of the hook types are exactly the numbers below
    [NUM_HOOKS]: each value is below the end marker, two hook types never
    share a value, and every number below the end marker is the value of a
    hook type. *)
Theorem HookType_values_fill_range :
  (forall h, (HookType_value h < NUM_HOOKS)%nat) /\
  (forall h h', HookType_value h = HookType_value h' -> h = h') /\
  (forall n, (n < NUM_HOOKS)%nat -> exists h, HookType_value h = n).
Proof.
  unfold NUM_HOOKS. repeat split.
  - intros h. destruct h; simpl; lia.
  - intros h h'. destruct h, h'; simpl; intros E; (reflexivity || discriminate).
  - intros n Hn.
    destruct n as [| [| [| [| [| [| [| [| n]]]]]]]];
      [exists HOOK_LOAD_FILE | exists HOOK_CALL_FUNCTION | exists HOOK_QUEUE_EVENT
      | exists HOOK_DRAIN_EVENTS | exists HOOK_UPDATE_NETWORK_TIME
      | exists HOOK_BRO_OBJ_DTOR | exists META_HOOK_PRE | exists META_HOOK_POST | lia];
      reflexivity.
Qed.

(** ** Worked examples *)

Example int_to_double_7 : int_to_double 7 = S754_finite false 7881299347898368 (-50).
Proof. reflexivity. Qed.

Example int_to_double_INT_MIN :
  int_to_double INT_MIN = S754_finite true 4503599627370496 (-21).
Proof. reflexivity. Qed.

Example AsBool_of_int_5 :
  HookArgument.AsBool Checked (HookArgument.of_int 5) = AssertionFailed.
Proof. reflexivity. Qed.

Example AsInt_of_int_5 :
  HookArgument.AsInt Checked (HookArgument.of_int 5) =
  Returns (S754_finite false 5629499534213120 (-50)).
Proof. reflexivity. Qed.

Example VersionNumber_2_0_is_set : VersionNumber_bool {| major := 2; minor := 0 |} = true.
Proof. reflexivity. Qed.

(** Re-enabling a hook moves the plugin to its new place in the list. *)
Example re_enable_moves :
  EnableHook sample_registry 2%nat HOOK_CALL_FUNCTION 20 HOOK_CALL_FUNCTION =
  [(20, 2%nat); (10, 1%nat)].
Proof. reflexivity. Qed.

(** A call that the plugin of priority 5 declines and the plugin of
    priority 1 takes over: both are called, in that order, and
    [MetaHookPost] sees the second plugin's result. *)
Example call_function_scenario :
  dispatch scenario_registry scenario_methods (CallFunction 7%N 8%N 9%N) =
  (CallFunctionResult (true, 42%N),
   [CallHook 1%nat (CallFunction 7%N 8%N 9%N);
    CallHook 2%nat (CallFunction 7%N 8%N 9%N);
    CallMetaHookPost 3%nat HOOK_CALL_FUNCTION
      [HookArgument.of_Func 7%N; HookArgument.of_Frame 8%N; HookArgument.of_val_list 9%N]
      (HookArgument.of_func_result (true, 42%N))]).
Proof. reflexivity. Qed.

(** A file that the first plugin is not interested in and the second loads. *)
Example load_file_scenario :
  fst (dispatch scenario_registry scenario_methods (LoadFile "foo.zeek" "zeek")) =
  LoadFileResult 1 /\
  hook_calls (snd (dispatch scenario_registry scenario_methods (LoadFile "foo.zeek" "zeek"))) =
  [1%nat; 2%nat].
Proof. split; reflexivity. Qed.
